(** * bisect-chrome: the bisection engine, its prober, the evaluators and the
    Chrome launcher, embedded from [index.js], [default.js] and [Launcher.js].

    Revisions are JavaScript numbers holding integers; they are modelled as
    [Z] (every value the program handles is far below 2^53, so number
    arithmetic on them is exact).  Asynchronous calls are sequenced the way
    the [await]s sequence them; the outside world is a few oracles (what
    the snapshot server offers, what a download yields, how the child
    process ends) plus an explicit host state (the download directory,
    standard input, a journal of effects) threaded through a small
    monad.  Loops that the source does not bound take fuel. *)

From stdpp Require Import base decidable option list gmap sets strings.
From Stdlib Require Import ZArith Lia Ascii String.

(* [set_solver] clears hypotheses it has already consumed. *)
Set Warnings "-clear-no-such-hyp".

Open Scope Z_scope.

(** ** Host state and the effect monad *)

(** What the run does to the outside world, in program order. *)
Inductive event : Type :=
| ECanDownload (revision : Z)   (* browserFetcher.canDownload(revision) *)
| EDownload (revision : Z)      (* browserFetcher.download(revision, ..) *)
| ERunScript (revision : Z)     (* runScript(..) with CRPATH of revision *)
| EQuestion (answer : string)   (* rl.question resolved with this line *)
| ERemove (revision : Z).       (* browserFetcher.remove(revision) *)

(** The mutable surroundings of [bisect]: the revisions present in the
    download directory, the lines still to come on standard input, and the
    journal of effects performed so far. *)
Record host : Type := Host {
  local : gset Z;
  stdin : list string;
  journal : list event;
}.

(** Ways an [async] body stops without a value. *)
Inductive halt : Type :=
| ProcessExit (code : Z)   (* process.exit(code) *)
| Rejected                 (* a promise rejected and nothing catches it *)
| AwaitingInput            (* rl.question never resolves: no more input *)
| OutOfFuel.               (* the model's step budget ran out *)

Inductive result (A : Type) : Type :=
| Val (a : A)
| Halt (h : halt).
Arguments Val {A} a.
Arguments Halt {A} h.

Definition M (A : Type) : Type := host → result A * host.

Definition ret {A} (a : A) : M A := λ h, (Val a, h).
Definition stop {A} (x : halt) : M A := λ h, (Halt x, h).
Definition bind {A B} (m : M A) (k : A → M B) : M B :=
  λ h, match m h with
       | (Val a, h') => k a h'
       | (Halt x, h') => (Halt x, h')
       end.

Notation "'let*' x ':=' m 'in' k" := (bind m (λ x, k))
  (at level 10, x pattern, m at level 100, k at level 200,
   format "'[v' 'let*'  x  ':='  m  'in' '/' k ']'").

Definition emit (e : event) : M unit :=
  λ h, (Val tt, Host (local h) (stdin h) (journal h ++ [e])).

(** ** Values of [exitCode] *)

(** [exitCode] in [bisect] is [undefined], [null] (what the child's 'exit'
    event carries when a signal ended it) or a number. *)
Inductive exit_code : Type :=
| Undefined
| Null
| Code (n : Z).

(** JavaScript truthiness of an [exit_code], as [if (exitCode)] reads it. *)
Definition truthy (c : exit_code) : bool :=
  match c with
  | Code n => negb (n =? 0)
  | Undefined | Null => false
  end.

(** How the spawned child ends: the 'exit' event with a code, the 'exit'
    event with [code === null] and a signal name, or the 'error' event. *)
Inductive child_end : Type :=
| ChildExit (code : Z)
| ChildSignal (signal : string)
| ChildError.

(** [Math.round(x / 2)] for an integer [x]: halves round towards +infinity. *)
Definition round_half (x : Z) : Z := (x + 1) `div` 2.

(** ** Strings

    Answers typed at the prompt are strings of code units below 256; on
    those, [toLowerCase] shifts A-Z and the Latin-1 capitals, and [trim]
    strips the ECMAScript white space and line terminators that exist in
    that range. *)
Definition lower_ascii (c : ascii) : ascii :=
  let n := N_of_ascii c in
  if ((65 <=? n) && (n <=? 90))%N then ascii_of_N (n + 32)
  else if ((192 <=? n) && (n <=? 222) && negb (n =? 215))%N
       then ascii_of_N (n + 32)
  else c.

Fixpoint toLowerCase (s : string) : string :=
  match s with
  | EmptyString => EmptyString
  | String c s' => String (lower_ascii c) (toLowerCase s')
  end.

Definition is_white (c : ascii) : bool :=
  let n := N_of_ascii c in
  ((9 <=? n) && (n <=? 13) || (n =? 32) || (n =? 160))%N.

Fixpoint trimStart (s : string) : string :=
  match s with
  | EmptyString => EmptyString
  | String c s' => if is_white c then trimStart s' else s
  end.

Definition trim (s : string) : string :=
  String.rev (trimStart (String.rev (trimStart s))).

Section Bisect.

(** The oracles: which revisions the server offers, what a download
    yields (the executable path, or a falsy [info]), and how the script
    run against a revision ends. *)
Context (available : Z → bool).
Context (fetch : Z → option string).
Context (child : Z → child_end).

(** *** browserFetcher *)

Definition canDownload (revision : Z) : M bool :=
  let* _ := emit (ECanDownload revision) in
  ret (available revision).

Definition revisionInfo_local (revision : Z) : M bool :=
  λ h, (Val (bool_decide (revision ∈ local h)), h).

Definition browserFetcher_download (revision : Z) : M (option string) :=
  let* _ := emit (EDownload revision) in
  match fetch revision with
  | Some path =>
      λ h, (Val (Some path), Host ({[revision]} ∪ local h) (stdin h) (journal h))
  | None => ret None
  end.

Definition browserFetcher_remove (revision : Z) : M unit :=
  let* _ := emit (ERemove revision) in
  λ h, (Val tt, Host (local h ∖ {[revision]}) (stdin h) (journal h)).

(** *** findDownloadableRevision *)

Definition probe (rev : Z) : M bool := canDownload rev.

(** The [while (min <= down || up <= max)] loop.  [--down] and [++up]
    happen inside the conditional probes, so a front that sits on its
    bound stays there. *)
Fixpoint probe_loop (fuel : nat) (min max down up : Z) : M (option Z) :=
  match fuel with
  | O => stop OutOfFuel
  | S fuel' =>
      if bool_decide (min ≤ down) || bool_decide (up ≤ max) then
        let goDown := bool_decide (down > min) in
        let goUp := bool_decide (up < max) in
        let down' := if goDown then down - 1 else down in
        let up' := if goUp then up + 1 else up in
        let* downOk := (if goDown then probe down' else ret false) in
        let* upOk := (if goUp then probe up' else ret false) in
        if downOk then ret (Some down')
        else if upOk then ret (Some up')
        else probe_loop fuel' min max down' up'
      else ret None
  end.

Definition findDownloadableRevision (fuel : nat) (rev from to : Z)
  : M (option Z) :=
  let min := Z.min from to in
  let max := Z.max from to in
  let* ok := canDownload rev in
  if ok then ret (Some rev)
  else probe_loop fuel min max rev rev.

(** *** The two evaluators of [bisect] *)

(** What one answer at the 'Was it good?' prompt sets [exitCode] to. *)
Definition manual_answer (line : string) : exit_code :=
  let answer := toLowerCase (trim line) in
  if bool_decide (answer = "g") || bool_decide (answer = "good") then Code 0
  else if bool_decide (answer = "b") || bool_decide (answer = "bad") then Code 1
  else Undefined.

(** [while (exitCode === undefined)]: the recursion is on the lines still
    to come on standard input; each [promptAsync] takes one. *)
Fixpoint manual_loop (lines : list string) : M exit_code :=
  λ h,
    match lines with
    | [] => (Halt AwaitingInput, h)
    | line :: rest =>
        let h' := Host (local h) rest (journal h ++ [EQuestion line]) in
        match manual_answer line with
        | Undefined => manual_loop rest h'
        | exitCode => (Val exitCode, h')
        end
    end.

Definition manual_evaluate : M exit_code := λ h, manual_loop (stdin h) h.

(** [runScript]: resolves with the code of the child's 'exit' event
    ([null] after a signal) and rejects on its 'error' event. *)
Definition runScript (revision : Z) : M exit_code :=
  let* _ := emit (ERunScript revision) in
  match child revision with
  | ChildExit code => ret (Code code)
  | ChildSignal _ => ret Null
  | ChildError => stop Rejected
  end.

Definition downloadRevision (revision : Z) : M (option string) :=
  browserFetcher_download revision.

(** *** bisect *)

(** One pass through the body of [while (true)]: [None] is [break],
    [Some (good, bad)] the pair the next pass starts from. *)
Definition bisect_body (fuel : nat) (isManual : bool) (good bad : Z)
  : M (option (Z * Z)) :=
  let middle := round_half (good + bad) in
  let* found := findDownloadableRevision fuel middle good bad in
  match found with
  | None => ret None
  | Some revision =>
      if bool_decide (revision = 0) || bool_decide (revision = good)
         || bool_decide (revision = bad)
      then ret None
      else
        let* isLocal := revisionInfo_local revision in
        let shouldRemove := negb isLocal in
        let* info := downloadRevision revision in
        match info with
        | None => stop (ProcessExit 1)
        | Some _ =>
            let* exitCode :=
              (if isManual then manual_evaluate else runScript revision) in
            let* _ :=
              (if shouldRemove then browserFetcher_remove revision
               else ret tt) in
            if truthy exitCode then ret (Some (good, revision))
            else ret (Some (revision, bad))
        end
  end.

Fixpoint bisect_loop (fuel iterations : nat) (isManual : bool)
    (good bad : Z) : M (Z * Z) :=
  match iterations with
  | O => stop OutOfFuel
  | S iterations' =>
      let* next := bisect_body fuel isManual good bad in
      match next with
      | None => ret (good, bad)
      | Some (good', bad') =>
          bisect_loop fuel iterations' isManual good' bad'
      end
  end.

(** [bisect(shellCmd, scriptPath, good, bad, isManual)]; the value is the
    pair whose minimum and maximum go to [revisionToSha]. *)
Definition bisect (fuel : nat) (isManual : bool) (good bad : Z)
  : M (Z * Z) :=
  bisect_loop fuel fuel isManual good bad.

End Bisect.

(** ** default.js: the script [bisect] runs when none is given *)

Module DefaultScript.

Definition goodAnswers : gset string := {[ "g"; "good"; "y"; "yes" ]}.
Definition badAnswers : gset string := {[ "b"; "bad"; "n"; " no" ]}.

(** [ask] resolves with the line lower-cased (it is not trimmed). *)
Definition ask (line : string) : string := toLowerCase line.

(** [isGood]: [while (true)] over the lines still to come; the value is
    the verdict, if one is reached, and the input left over. *)
Fixpoint isGood (lines : list string) : option bool * list string :=
  match lines with
  | [] => (None, [])
  | line :: rest =>
      let answer := ask line in
      if bool_decide (answer ∈ goodAnswers) then (Some true, rest)
      else if bool_decide (answer ∈ badAnswers) then (Some false, rest)
      else isGood rest
  end.

(** [process.exit(good ? 0 : 1)] after a successful launch. *)
Definition exit_status (lines : list string) : option Z :=
  match isGood lines with
  | (Some good, _) => Some (if good then 0 else 1)
  | (None, _) => None
  end.

End DefaultScript.

(** ** Launcher.js *)

Module Launcher.

(** [ignoreDefaultArgs] is a boolean or an array of arguments. *)
Inductive ignore_args : Type :=
| IgnoreFlag (b : bool)
| IgnoreThese (l : list string).

(** The fields of [options] that [launch] and [defaultArgs] read and that
    decide arguments, hooks and the profile directory. *)
Record options : Type := Options {
  ignoreDefaultArgs : ignore_args;
  args : list string;
  userDataDir : option string;
  devtools : bool;
  handleSIGINT : bool;
  handleSIGTERM : bool;
  handleSIGHUP : bool;
}.

Definition startsWith (s prefix : string) : bool := String.prefix prefix s.

(** Truthiness of [userDataDir]: set, and not the empty string. *)
Definition dir_given (d : option string) : option string :=
  match d with
  | Some "" | None => None
  | Some d => Some d
  end.

Definition defaultArgs (o : options) : list string :=
  (match dir_given (userDataDir o) with
   | Some d => ["--user-data-dir=" +:+ d]
   | None => []
   end)
  ++ (if devtools o then ["--auto-open-devtools-for-tabs"] else [])
  ++ (if forallb (λ arg, startsWith arg "-") (args o) then ["about:blank"]
      else [])
  ++ args o.

(** [chromeArguments] as it stands when line 348 tests it. *)
Definition initialArguments (o : options) : list string :=
  match ignoreDefaultArgs o with
  | IgnoreFlag false => defaultArgs o
  | IgnoreThese l =>
      filter (λ arg, arg ∉ l) (defaultArgs o)
  | IgnoreFlag true => args o
  end.

(** [path.join(os.tmpdir(), 'chrome_bisect_dev_profile-')], with [/tmp]
    for [os.tmpdir()]. *)
Definition CHROME_PROFILE_PATH : string := "/tmp/chrome_bisect_dev_profile-".

(** A forced kill as the operating system sees it. *)
Inductive kill_attempt : Type :=
| Taskkill (pid : Z)        (* execSync(`taskkill /pid ${pid} /T /F`) *)
| Sigkill (pgid : Z).       (* process.kill(-pid, 'SIGKILL') *)

(** The machine around the launcher: the directories that exist, the
    process groups alive, the forced kills attempted so far (oldest
    first), the listeners on [process], and the platform. *)
Record os : Type := Os {
  dirs : gset string;
  alive : gset Z;
  kills : list kill_attempt;
  hooks : list string;
  win32 : bool;
}.

(** The variables the closures of one [launch] share. *)
Record chrome : Type := Chrome {
  chromeArguments : list string;
  temporaryUserDataDir : option string;
  pid : option Z;            (* chromeProcess.pid; undefined: spawn failed *)
  killed : bool;             (* chromeProcess.killed *)
  chromeClosed : bool;
  closedPromise : bool;      (* waitForChromeToClose is fulfilled *)
  listeners : list string;
}.

(** A synchronous call either completes or throws. *)
Inductive completion (A : Type) : Type :=
| Normal (a : A)
| Throw (message : string).
Arguments Normal {A} a.
Arguments Throw {A} message.

(** A synchronous statement run on the machine [os]. *)
Definition stmt (os : Type) : Type := os → completion unit * os.

(** [try { body } catch (e) { }]: what the body did stays done. *)
Definition try_catch {os} (body : stmt os) : stmt os :=
  λ w, (Normal tt, (body w).2).

(** [first; next]: a throw in [first] skips [next]. *)
Definition and_then {os} (first next : stmt os) : stmt os :=
  λ w, match first w with
       | (Normal _, w') => next w'
       | (Throw e, w') => (Throw e, w')
       end.

Definition skip {os} : stmt os := λ w, (Normal tt, w).

(** The forced kill of lines 418-421.  The attempt is recorded whether or
    not the group still exists; a group that is gone makes the call throw. *)
Definition force_kill (p : Z) : stmt os :=
  λ w,
    let attempt := if win32 w then Taskkill p else Sigkill p in
    (if bool_decide (p ∈ alive w) then Normal tt else Throw "ESRCH",
     Os (dirs w) (alive w ∖ {[p]}) (kills w ++ [attempt]) (hooks w) (win32 w)).

(** [removeFolder.sync(path)]: rimraf throws on a path that is no string
    and removes the directory otherwise. *)
Definition removeFolder_sync (path : option string) : stmt os :=
  λ w,
    match path with
    | None => (Throw "rimraf: missing path", w)
    | Some d =>
        (Normal tt, Os (dirs w ∖ {[d]}) (alive w) (kills w) (hooks w) (win32 w))
    end.

(** [emitter.removeListener(name, handler)]: the first registration goes. *)
Fixpoint removeListener (l : string) (hs : list string) : list string :=
  match hs with
  | [] => []
  | x :: hs' => if bool_decide (x = l) then hs' else x :: removeListener l hs'
  end.

(** [removeEventListeners(listeners)]: each listener leaves [process]. *)
Fixpoint removeEventListeners (ls : list string) (hs : list string)
  : list string :=
  match ls with
  | [] => hs
  | l :: ls' => removeEventListeners ls' (removeListener l hs)
  end.

(** [Launcher.launch(options)].  [suffix] is what [mkdtemp] appends to the
    prefix, [spawned] the pid the child got (none when the spawn failed). *)
Definition launch (o : options) (suffix : string) (spawned : option Z)
    (w : os) : chrome * os :=
  let arguments := initialArguments o in
  let fresh := CHROME_PROFILE_PATH +:+ suffix in
  let own := negb (existsb (λ arg, startsWith arg "--user-data-dir") arguments) in
  let temporaryUserDataDir := if own then Some fresh else None in
  let arguments' :=
    if own then arguments ++ ["--user-data-dir=" +:+ fresh] else arguments in
  let listeners :=
    ["exit"]
    ++ (if handleSIGINT o then ["SIGINT"] else [])
    ++ (if handleSIGTERM o then ["SIGTERM"] else [])
    ++ (if handleSIGHUP o then ["SIGHUP"] else []) in
  (Chrome arguments' temporaryUserDataDir spawned false false false listeners,
   Os (if own then {[fresh]} ∪ dirs w else dirs w)
      (match spawned with Some p => {[p]} ∪ alive w | None => alive w end)
      (kills w)
      (hooks w ++ listeners)
      (win32 w)).

(** Truthiness of [chromeProcess.pid]. *)
Definition pid_truthy (p : option Z) : option Z :=
  match p with
  | Some 0 | None => None
  | Some p => Some p
  end.

(** [killChrome()].  Neither way of killing goes through
    [chromeProcess.kill], so [killed] is left as it was; the closure's
    [listeners] array is emptied by [removeEventListeners]. *)
Definition killChrome (c : chrome) (w : os) : completion (chrome * os) :=
  let c' := Chrome (chromeArguments c) (temporaryUserDataDir c) (pid c)
                   (killed c) (chromeClosed c) (closedPromise c) [] in
  let unhook : stmt os :=
    λ w, (Normal tt,
          Os (dirs w) (alive w) (kills w)
             (removeEventListeners (listeners c) (hooks w)) (win32 w)) in
  let kill : stmt os :=
    match pid_truthy (pid c) with
    | Some p =>
        if negb (killed c) && negb (chromeClosed c)
        then try_catch (force_kill p)
        else skip
    | None => skip
    end in
  let tidy : stmt os :=
    try_catch (removeFolder_sync (temporaryUserDataDir c)) in
  match and_then unhook (and_then kill tidy) w with
  | (Normal _, w') => Normal (c', w')
  | (Throw e, _) => Throw e
  end.

(** [gracefullyCloseChrome()], the capability [launch] returns: the value
    is the promise [waitForChromeToClose], here whether it is fulfilled. *)
Definition gracefullyCloseChrome (c : chrome) (w : os)
  : completion (chrome * os * bool) :=
  match killChrome c w with
  | Normal (c', w') => Normal (c', w', closedPromise c')
  | Throw e => Throw e
  end.

(** The handler of [chromeProcess.once('exit', ..)], run by the event loop
    once the child is gone. *)
Definition chrome_exited (c : chrome) (w : os) : chrome * os :=
  let w' :=
    match temporaryUserDataDir c with
    | Some d => Os (dirs w ∖ {[d]}) (alive w) (kills w) (hooks w) (win32 w)
    | None => w
    end in
  (Chrome (chromeArguments c) (temporaryUserDataDir c) (pid c) (killed c)
          true true (listeners c),
   w').

(** What can happen to a launched Chrome, one event-loop turn at a time. *)
Inductive action : Type :=
| Close        (* the returned capability is called, by the caller or by
                  the SIGTERM or SIGHUP hook *)
| Kill         (* killChrome() is called, by the 'exit' or SIGINT hook *)
| ChromeExit.  (* the child's 'exit' event is delivered *)

Definition step (a : action) (cw : chrome * os) : completion (chrome * os) :=
  match a with
  | Close =>
      match gracefullyCloseChrome cw.1 cw.2 with
      | Normal (c', w', _) => Normal (c', w')
      | Throw e => Throw e
      end
  | Kill => killChrome cw.1 cw.2
  | ChromeExit => Normal (chrome_exited cw.1 cw.2)
  end.

Fixpoint steps (l : list action) (cw : chrome * os)
  : completion (chrome * os) :=
  match l with
  | [] => Normal cw
  | a :: l' =>
      match step a cw with
      | Normal cw' => steps l' cw'
      | Throw e => Throw e
      end
  end.

(** The kill [killChrome] attempts from closure state [c], if any. *)
Definition kill_attempted (c : chrome) (w : os) : list kill_attempt :=
  match pid_truthy (pid c) with
  | Some p =>
      if negb (killed c) && negb (chromeClosed c)
      then [if win32 w then Taskkill p else Sigkill p]
      else []
  | None => []
  end.

End Launcher.

(** ** index.js: the command line *)

Definition defaultMinimumRevision : Z := 305043.

(** What minimist left in [argv] under a name: nothing, something that is
    no number, or a number (an integer, as revisions are). *)
Inductive argument : Type :=
| Absent
| NotANumber
| Number (n : Z).

(** The fields of [argv] the top-level function reads, and whether the
    script it resolves exists. *)
Record argv : Type := Argv {
  help : bool;               (* argv.h || argv.help *)
  arg_good : argument;       (* argv.good *)
  arg_bad : argument;        (* argv.bad *)
  manual : bool;             (* !!argv['manual'] *)
  scriptExists : bool;       (* fs.existsSync(scriptPath) *)
}.

Definition getRevisionArgument (maxRevision : Z) (a : argument)
    (defaultValue : Z) : M Z :=
  match a with
  | Absent => ret defaultValue
  | NotANumber => stop (ProcessExit 1)
  | Number n =>
      if bool_decide (n <= defaultMinimumRevision) then stop (ProcessExit 1)
      else if bool_decide (n >= maxRevision) then stop (ProcessExit 1)
      else ret n
  end.

(** The top-level [async] function; [maxRevision] is what [lastRevision()]
    resolved with. *)
Definition main (available : Z → bool) (fetch : Z → option string)
    (child : Z → child_end) (maxRevision : Z) (fuel : nat) (a : argv)
  : M (Z * Z) :=
  if help a then stop (ProcessExit 0)
  else
    let* good :=
      getRevisionArgument maxRevision (arg_good a) defaultMinimumRevision in
    let* bad := getRevisionArgument maxRevision (arg_bad a) maxRevision in
    let isManual := manual a in
    if negb isManual && negb (scriptExists a) then stop (ProcessExit 1)
    else bisect available fetch child fuel isManual good bad.

(** ** index.js: the progress bar of [downloadRevision] *)

(** The progress bar: its [total] and what it has been ticked so far. *)
Record ProgressBar : Type := Bar {
  total : Z;
  curr : Z;
}.

(** The two variables the progress callback closes over. *)
Record progress : Type := Progress {
  progressBar : option ProgressBar;
  lastDownloadedBytes : Z;
}.

Definition tick (delta : Z) (b : ProgressBar) : ProgressBar :=
  Bar (total b) (curr b + delta).

(** The callback [(downloadedBytes, totalBytes) => ..] handed to
    [browserFetcher.download]. *)
Definition onProgress (p : progress) (downloadedBytes totalBytes : Z)
  : progress :=
  let bar :=
    match progressBar p with
    | None => Bar totalBytes 0
    | Some b => b
    end in
  let delta := downloadedBytes - lastDownloadedBytes p in
  Progress (Some (tick delta bar)) downloadedBytes.

(** The state after the reports [calls], each a pair
    [(downloadedBytes, totalBytes)], starting from
    [progressBar = null, lastDownloadedBytes = 0]. *)
Definition report (calls : list (Z * Z)) : progress :=
  foldl (λ p call, onProgress p call.1 call.2) (Progress None 0) calls.

(** ** default.js: the whole script *)

Module DefaultMain.

(** The script, given whether [Launcher.launch] resolved (and with what)
    and the lines typed: the status it exits with, if it gets that far,
    and the launched Chrome after [await close()], the child's exit
    having been awaited. *)
Definition run (launched : Launcher.completion (Launcher.chrome * Launcher.os))
    (lines : list string)
  : option Z * Launcher.completion (Launcher.chrome * Launcher.os) :=
  match launched with
  | Launcher.Throw e => (Some 1, Launcher.Throw e)
  | Launcher.Normal cw =>
      match DefaultScript.isGood lines with
      | (Some good, _) =>
          (Some (if good then 0 else 1),
           Launcher.steps [Launcher.Close; Launcher.ChromeExit] cw)
      | (None, _) => (None, Launcher.Normal cw)
      end
  end.

End DefaultMain.

(** * Properties *)

(** ** Vocabulary *)

(** The host after the probes [ps] were journalled, nothing else touched. *)
Definition probed (ps : list Z) (h : host) : host :=
  Host (local h) (stdin h) (journal h ++ (ECanDownload <$> ps)).

(** [p] lies in the bracket [[min, max]]. *)
Definition inside (min max : Z) (p : Z) : Prop := min ≤ p ≤ max.

(** What a run of the prober can be: its probes stay in the bracket, a
    revision it returns is in the bracket and available, it never returns
    [null], and the only way not to return is to keep looping. *)
Definition loop_run (available : Z → bool) (min max : Z) (ps : list Z)
    (r : result (option Z)) : Prop :=
  Forall (inside min max) ps ∧
  (∀ v, r = Val (Some v) → inside min max v ∧ available v = true) ∧
  r ≠ Val None ∧
  (∀ x, r = Halt x → x = OutOfFuel).

(** The host once [revision] has been fetched into the download directory. *)
Definition downloaded (revision : Z) (h : host) : host :=
  Host ({[revision]} ∪ local h) (stdin h) (journal h ++ [EDownload revision]).

(** The host after the [if (shouldRemove)] of an iteration: [wasLocal] is
    what [revisionInfo(revision).local] said before the download. *)
Definition released (revision : Z) (wasLocal : bool) (h : host) : host :=
  if wasLocal then h
  else Host (local h ∖ {[revision]}) (stdin h) (journal h ++ [ERemove revision]).

(** The five ways one pass through the body of [while (true)] can go, from
    host [h]: the prober never returns; the search cannot be narrowed
    ([break]); the download yields nothing; the evaluator does not come
    back with a verdict; or the pass completes and moves one end of the
    bracket to the candidate. *)
Inductive body_run (available : Z → bool) (fetch : Z → option string)
    (child : Z → child_end) (isManual : bool) (good bad : Z) (h : host)
  : result (option (Z * Z)) → host → Prop :=
| run_spins ps :
    Forall (inside (Z.min good bad) (Z.max good bad)) ps →
    body_run available fetch child isManual good bad h
      (Halt OutOfFuel) (probed ps h)
| run_break ps revision :
    Forall (inside (Z.min good bad) (Z.max good bad)) ps →
    inside (Z.min good bad) (Z.max good bad) revision →
    available revision = true →
    revision = 0 ∨ revision = good ∨ revision = bad →
    body_run available fetch child isManual good bad h
      (Val None) (probed ps h)
| run_download_failed ps revision :
    Forall (inside (Z.min good bad) (Z.max good bad)) ps →
    inside (Z.min good bad) (Z.max good bad) revision →
    revision ≠ good → revision ≠ bad →
    fetch revision = None →
    body_run available fetch child isManual good bad h
      (Halt (ProcessExit 1))
      (Host (local h) (stdin h)
            (journal (probed ps h) ++ [EDownload revision]))
| run_evaluator_halts ps revision x h3 :
    Forall (inside (Z.min good bad) (Z.max good bad)) ps →
    inside (Z.min good bad) (Z.max good bad) revision →
    revision ≠ good → revision ≠ bad →
    (if isManual then manual_evaluate else runScript child revision)
      (downloaded revision (probed ps h)) = (Halt x, h3) →
    body_run available fetch child isManual good bad h (Halt x) h3
| run_continue ps revision exitCode h3 :
    Forall (inside (Z.min good bad) (Z.max good bad)) ps →
    inside (Z.min good bad) (Z.max good bad) revision →
    revision ≠ good → revision ≠ bad →
    available revision = true →
    (if isManual then manual_evaluate else runScript child revision)
      (downloaded revision (probed ps h)) = (Val exitCode, h3) →
    body_run available fetch child isManual good bad h
      (Val (Some (if truthy exitCode then (good, revision)
                  else (revision, bad))))
      (released revision (bool_decide (revision ∈ local h)) h3).

(** An event the evaluators produce: a question answered or a script run. *)
Definition is_evaluation (e : event) : Prop :=
  match e with
  | EQuestion _ | ERunScript _ => True
  | _ => False
  end.

(** An event that respects the bracket [[lo, hi]] and the revisions [L]
    that were in the download directory: probes are inside the bracket, and
    nothing in [L] is removed. *)
Definition tame (lo hi : Z) (L : gset Z) (e : event) : Prop :=
  match e with
  | ECanDownload p => inside lo hi p
  | ERemove v => v ∉ L
  | _ => True
  end.

(** Two hosts that agree on everything the program can read. *)
Definition alike (h1 h2 : host) : Prop :=
  local h1 = local h2 ∧ stdin h1 = stdin h2.

(** A computation that never reads the journal: from alike hosts it
    yields the same value and alike hosts. *)
Definition blind {A} (m : M A) : Prop :=
  ∀ h1 h2, alike h1 h2 → (m h1).1 = (m h2).1 ∧ alike (m h1).2 (m h2).2.

(** What is left of a pass once the candidate is known and fetched. *)
Definition after_download (child : Z → child_end) (isManual : bool)
    (good bad revision : Z) (wasLocal : bool) : M (option (Z * Z)) :=
  let* exitCode :=
    (if isManual then manual_evaluate else runScript child revision) in
  let* _ :=
    (if negb wasLocal then browserFetcher_remove revision else ret tt) in
  if truthy exitCode then ret (Some (good, revision))
  else ret (Some (revision, bad)).

(** The fronts are level around [rev], or one of them has stopped on its
    bound while the other has gone at least as far. *)
Definition level (min max rev down up : Z) : Prop :=
  rev - down = up - rev ∨
  (down = min ∧ rev - down ≤ up - rev) ∨
  (up = max ∧ up - rev ≤ rev - down).

(** The verdict of the script on revision [r], as [if (exitCode)] reads
    what [runScript] resolves with: bad for a nonzero exit code, good for
    0 and for a child ended by a signal. *)
Definition judged_bad (child : Z → child_end) (r : Z) : bool :=
  match child r with
  | ChildExit code => negb (code =? 0)
  | ChildSignal _ | ChildError => false
  end.

(** The revisions downloaded, in order, among the events [evs]. *)
Definition downloads (evs : list event) : list Z :=
  omap (λ e, match e with EDownload v => Some v | _ => None end) evs.

(** The ends of a bracket are what the run started from or what the
    script judged. *)
Definition labelled (available : Z → bool) (child : Z → child_end)
    (good bad g b : Z) : Prop :=
  (g = good ∨ (available g = true ∧ judged_bad child g = false)) ∧
  (b = bad ∨ (available b = true ∧ judged_bad child b = true)).


(** A revision argument the command line accepts: absent (the default
    stands in) or a number strictly between the oldest supported revision
    and the newest one. *)
Definition valid_argument (maxRevision : Z) (a : argument) : Prop :=
  match a with
  | Absent => True
  | NotANumber => False
  | Number n => defaultMinimumRevision < n < maxRevision
  end.

Global Instance valid_argument_dec maxRevision a :
  Decision (valid_argument maxRevision a).
Proof. destruct a; simpl; apply _. Defined.

(** The revision an accepted argument stands for. *)
Definition resolve (a : argument) (defaultValue : Z) : Z :=
  match a with
  | Number n => n
  | Absent | NotANumber => defaultValue
  end.

(** A line [isGood] of default.js neither takes for good nor for bad. *)
Definition unrecognised (line : string) : Prop :=
  toLowerCase line ∉ DefaultScript.goodAnswers ∪ DefaultScript.badAnswers.

(** Closes an equation between two hosts that differ only in how the
    appends to the journal are bracketed. *)
Ltac by_journal :=
  intros; unfold probed; simpl; rewrite <- ?app_assoc; simpl;
  rewrite ?app_nil_r; reflexivity.

(** ** The prober *)

Section Prober_facts.
Context (available : Z → bool).

Lemma probed_nil h : probed [] h = h.
Proof. destruct h. by_journal. Qed.

Lemma loop_run_cons min max p ps r :
  inside min max p →
  loop_run available min max ps r → loop_run available min max (p :: ps) r.
Proof. intros Hp (Hps & Hv & Hn & Hx). split_and!; auto. Qed.

Lemma loop_run_found min max ps v :
  Forall (inside min max) ps → inside min max v → available v = true →
  loop_run available min max ps (Val (Some v)).
Proof.
  intros Hps Hv Ha. split_and!; [done| |done|done].
  by intros ? [= <-].
Qed.

(** The loop, for fronts that start inside the bracket: the value and the
    probes do not depend on the host, and they form a [loop_run]. *)
Lemma probe_loop_run fuel min max : ∀ down up,
  min ≤ down → down ≤ up → up ≤ max →
  ∃ ps r,
    (∀ h, probe_loop available fuel min max down up h = (r, probed ps h)) ∧
    loop_run available min max ps r.
Proof.
  induction fuel as [|fuel IH]; intros down up Hd Hdu Hu; simpl.
  { exists [], (Halt OutOfFuel). split.
    - intros h. by rewrite probed_nil.
    - split_and!; [constructor|done|done|by intros ? [= <-]]. }
  rewrite (bool_decide_true (min ≤ down)) by done. simpl.
  unfold probe, bind, canDownload, emit, ret.
  destruct (decide (down > min)) as [Gd|Gd];
    [rewrite (bool_decide_true _ Gd)|rewrite (bool_decide_false _ Gd)];
  (destruct (decide (up < max)) as [Gu|Gu];
    [rewrite (bool_decide_true _ Gu)|rewrite (bool_decide_false _ Gu)]);
  simpl.
  - destruct (IH (down - 1) (up + 1)) as (ps & r & Hrun & Hok); [lia..|].
    assert (Hi1 : inside min max (down - 1)) by (unfold inside; lia).
    assert (Hi2 : inside min max (up + 1)) by (unfold inside; lia).
    destruct (available (down - 1)) eqn:Ad;
      [|destruct (available (up + 1)) eqn:Au].
    + exists [down - 1; up + 1], (Val (Some (down - 1))). split.
      * by_journal.
      * apply loop_run_found; auto.
    + exists [down - 1; up + 1], (Val (Some (up + 1))). split.
      * by_journal.
      * apply loop_run_found; auto.
    + exists (down - 1 :: up + 1 :: ps), r. split.
      * intros h; rewrite Hrun; by_journal.
      * by do 2 (apply loop_run_cons; [done|]).
  - destruct (IH (down - 1) up) as (ps & r & Hrun & Hok); [lia..|].
    assert (Hi1 : inside min max (down - 1)) by (unfold inside; lia).
    destruct (available (down - 1)) eqn:Ad.
    + exists [down - 1], (Val (Some (down - 1))). split.
      * by_journal.
      * apply loop_run_found; auto.
    + exists (down - 1 :: ps), r. split.
      * intros h; rewrite Hrun; by_journal.
      * by apply loop_run_cons.
  - destruct (IH down (up + 1)) as (ps & r & Hrun & Hok); [lia..|].
    assert (Hi2 : inside min max (up + 1)) by (unfold inside; lia).
    destruct (available (up + 1)) eqn:Au.
    + exists [up + 1], (Val (Some (up + 1))). split.
      * by_journal.
      * apply loop_run_found; auto.
    + exists (up + 1 :: ps), r. split.
      * intros h; rewrite Hrun; by_journal.
      * by apply loop_run_cons.
  - destruct (IH down up) as (ps & r & Hrun & Hok); [lia..|].
    by exists ps, r.
Qed.

Lemma findDownloadableRevision_run fuel rev from to :
  inside (Z.min from to) (Z.max from to) rev →
  ∃ ps r,
    (∀ h, findDownloadableRevision available fuel rev from to h
          = (r, probed ps h)) ∧
    loop_run available (Z.min from to) (Z.max from to) ps r.
Proof.
  intros Hin. unfold findDownloadableRevision, bind, canDownload, emit, ret.
  simpl. destruct (available rev) eqn:Ar.
  - exists [rev], (Val (Some rev)). split.
    + by_journal.
    + apply loop_run_found; auto.
  - destruct (probe_loop_run fuel (Z.min from to) (Z.max from to) rev rev)
      as (ps & r & Hrun & Hok); [unfold inside in Hin; lia..|].
    exists (rev :: ps), r. split.
    + intros h; rewrite Hrun; by_journal.
    + by apply loop_run_cons.
Qed.

(** With nothing to find in the bracket, no amount of fuel makes the prober
    return: the guard [min <= down || up <= max] stays true for ever. *)
Lemma prober_spins fuel rev from to h :
  inside (Z.min from to) (Z.max from to) rev →
  (∀ p, inside (Z.min from to) (Z.max from to) p → available p = false) →
  (findDownloadableRevision available fuel rev from to h).1 = Halt OutOfFuel.
Proof.
  intros Hin Hnone.
  destruct (findDownloadableRevision_run fuel rev from to Hin)
    as (ps & r & Hrun & _ & Hv & Hn & Hx).
  rewrite Hrun. simpl. destruct r as [[v|]|x].
  - destruct (Hv v eq_refl) as [Hi Ha]. rewrite (Hnone v Hi) in Ha. done.
  - done.
  - by rewrite (Hx x eq_refl).
Qed.

End Prober_facts.

(** ** One pass of the engine *)

Lemma round_half_inside good bad :
  inside (Z.min good bad) (Z.max good bad) (round_half (good + bad)).
Proof.
  unfold inside, round_half.
  pose proof (Z.div_mod (good + bad + 1) 2 ltac:(lia)) as Hdm.
  pose proof (Z.mod_pos_bound (good + bad + 1) 2 ltac:(lia)) as Hm.
  lia.
Qed.

Section Engine_facts.
Context (available : Z → bool) (fetch : Z → option string).
Context (child : Z → child_end).

Abbreviation evaluator isManual revision :=
  (if isManual then manual_evaluate else runScript child revision).

Lemma bisect_body_run fuel isManual good bad h r h' :
  bisect_body available fetch child fuel isManual good bad h = (r, h') →
  body_run available fetch child isManual good bad h r h'.
Proof.
  unfold bisect_body.
  destruct (findDownloadableRevision_run available fuel
              (round_half (good + bad)) good bad (round_half_inside good bad))
    as (ps & r0 & Hrun & Hps & Hv & Hn & Hx).
  unfold bind at 1. rewrite Hrun.
  destruct r0 as [[v|]|x]; [|done|].
  2:{ intros [= <- <-]. rewrite (Hx x eq_refl). by constructor. }
  destruct (Hv v eq_refl) as [Hi Ha].
  destruct (bool_decide (v = 0) || bool_decide (v = good)
            || bool_decide (v = bad)) eqn:Hstop.
  { intros [= <- <-]. eapply run_break; eauto.
    rewrite !orb_true_iff, !bool_decide_eq_true in Hstop. tauto. }
  apply orb_false_elim in Hstop as [Hstop Hb].
  apply orb_false_elim in Hstop as [H0 Hg].
  apply bool_decide_eq_false in H0, Hg, Hb.
  unfold bind, revisionInfo_local, downloadRevision, browserFetcher_download.
  unfold bind, emit, ret. simpl.
  destruct (fetch v) as [path|] eqn:Hf; simpl.
  2:{ intros [= <- <-]. eapply run_download_failed; eauto. }
  change (Host ({[v]} ∪ local h) (stdin h)
                ((journal h ++ (ECanDownload <$> ps)) ++ [EDownload v]))
    with (downloaded v (probed ps h)).
  destruct (evaluator isManual v (downloaded v (probed ps h)))
    as [[exitCode|x] h3] eqn:He.
  2:{ intros [= <- <-]. eapply run_evaluator_halts; eauto. }
  unfold browserFetcher_remove, bind, emit, ret.
  intros H. 
  assert (r = Val (Some (if truthy exitCode then (good, v) else (v, bad))) ∧
          h' = released v (bool_decide (v ∈ local h)) h3) as [-> ->].
  { unfold released. destruct (bool_decide (v ∈ local h)); simpl in H;
      destruct (truthy exitCode); by inversion H. }
  eapply run_continue; eauto.
Qed.

Lemma runScript_run revision h :
  runScript child revision h =
  (match child revision with
   | ChildExit code => Val (Code code)
   | ChildSignal _ => Val Null
   | ChildError => Halt Rejected
   end,
   Host (local h) (stdin h) (journal h ++ [ERunScript revision])).
Proof.
  unfold runScript, bind, emit, ret, stop. simpl.
  by destruct (child revision).
Qed.

(** The prompt loop: it takes lines off standard input up to and including
    the first one it recognises, and touches nothing else. *)
Lemma manual_loop_run lines : ∀ h r h',
  stdin h = lines →
  manual_loop lines h = (r, h') →
  ∃ asked,
    lines = asked ++ stdin h' ∧
    h' = Host (local h) (stdin h') (journal h ++ (EQuestion <$> asked)) ∧
    match r with
    | Val exitCode =>
        exitCode ≠ Undefined ∧
        ∃ skipped line,
          asked = skipped ++ [line] ∧
          Forall (λ l, manual_answer l = Undefined) skipped ∧
          manual_answer line = exitCode
    | Halt x =>
        x = AwaitingInput ∧ stdin h' = [] ∧
        Forall (λ l, manual_answer l = Undefined) asked
    end.
Proof.
  induction lines as [|line rest IH]; intros h r h' Hin; simpl.
  - intros [= <- <-]. exists []. destruct h; simpl in *.
    rewrite app_nil_r. split_and!; auto.
  - destruct (manual_answer line) eqn:Ha.
    + intros H. apply IH in H as (asked & -> & Hh' & Hr); [|done].
      simpl in Hh'.
      exists (line :: asked). split; [done|]. split.
      { rewrite Hh'. simpl. by rewrite <- app_assoc. }
      destruct r as [c|x].
      * destruct Hr as (Hc & skipped & l & -> & Hs & Hl).
        split; [done|]. exists (line :: skipped), l. auto.
      * destruct Hr as (-> & Hn & Hs). auto.
    + intros [= <- <-]. exists [line]. simpl. split_and!; auto.
      exists [], line. auto.
    + intros [= <- <-]. exists [line]. simpl. split_and!; auto.
      exists [], line. auto.
Qed.

(** Either evaluator leaves the download directory alone and journals
    only its own events. *)
Lemma evaluator_quiet (isManual : bool) revision (h : host) r h' :
  evaluator isManual revision h = (r, h') →
  local h' = local h ∧
  ∃ evs, journal h' = journal h ++ evs ∧ Forall is_evaluation evs.
Proof.
  destruct isManual.
  - unfold manual_evaluate. intros H.
    apply manual_loop_run in H as (asked & _ & -> & _); [|done]. simpl.
    split; [done|]. eexists; split; [done|].
    apply Forall_fmap, Forall_true. done.
  - rewrite runScript_run. intros [= <- <-]. simpl.
    split; [done|]. eexists; split; [done|]. by repeat constructor.
Qed.

Lemma tame_weaken lo hi L lo' hi' L' e :
  lo ≤ lo' → hi' ≤ hi → L ⊆ L' → tame lo' hi' L' e → tame lo hi L e.
Proof.
  intros Hlo Hhi HL. destruct e; simpl; try done.
  - unfold inside. lia.
  - set_solver.
Qed.

Lemma is_evaluation_tame lo hi L e : is_evaluation e → tame lo hi L e.
Proof. by destruct e. Qed.

(** Every pass is tame, whatever its outcome, and a pass leaves nothing
    behind in the download directory that was not there before unless it
    was cut short. *)
Lemma body_run_tame isManual good bad h r h' :
  body_run available fetch child isManual good bad h r h' →
  ∃ evs,
    journal h' = journal h ++ evs ∧
    Forall (tame (Z.min good bad) (Z.max good bad) (local h)) evs ∧
    local h ⊆ local h' ∧
    (∀ next, r = Val next → local h' = local h).
Proof.
  assert (Hprobes : ∀ ps,
    Forall (inside (Z.min good bad) (Z.max good bad)) ps →
    Forall (tame (Z.min good bad) (Z.max good bad) (local h))
           (ECanDownload <$> ps)).
  { intros ps Hps. apply Forall_fmap. by eapply Forall_impl. }
  destruct 1 as [ps Hps|ps v Hps Hi Ha Hv|ps v Hps Hi Hg Hb Hf
                |ps v x h3 Hps Hi Hg Hb He|ps v c h3 Hps Hi Hg Hb Ha He].
  - eexists; split_and!; [done|auto|done|done].
  - eexists; split_and!; [done|auto|done|done].
  - exists ((ECanDownload <$> ps) ++ [EDownload v]). simpl.
    split_and!; [by rewrite app_assoc| |done|done].
    apply Forall_app. split; [auto|by repeat constructor].
  - apply evaluator_quiet in He as (HL & evs & HJ & Hevs). simpl in *.
    exists ((ECanDownload <$> ps) ++ [EDownload v] ++ evs).
    split_and!; [by rewrite HJ, <- !app_assoc| |rewrite HL; clear; set_solver|done].
    apply Forall_app. split; [auto|]. constructor; [done|].
    eapply Forall_impl; [done|]. apply is_evaluation_tame.
  - apply evaluator_quiet in He as (HL & evs & HJ & Hevs). simpl in *.
    unfold released. case_bool_decide as Hloc; simpl.
    + exists ((ECanDownload <$> ps) ++ [EDownload v] ++ evs).
      split_and!; [by rewrite HJ, <- !app_assoc| |
        rewrite HL; clear -Hloc; set_solver..].
      apply Forall_app. split; [auto|]. constructor; [done|].
      eapply Forall_impl; [done|]. apply is_evaluation_tame.
    + exists ((ECanDownload <$> ps) ++ [EDownload v] ++ evs ++ [ERemove v]).
      split_and!; [by rewrite HJ, <- !app_assoc| |
        rewrite HL; clear -Hloc; set_solver..].
      apply Forall_app. split; [auto|]. constructor; [done|].
      apply Forall_app. split; [|by repeat constructor].
      eapply Forall_impl; [done|]. apply is_evaluation_tame.
Qed.

(** A completed pass moves one end of the bracket strictly inside it. *)
Lemma body_run_narrows isManual good bad h good' bad' h' :
  body_run available fetch child isManual good bad h
    (Val (Some (good', bad'))) h' →
  ∃ revision,
    Z.min good bad < revision < Z.max good bad ∧
    ((good', bad') = (good, revision) ∨ (good', bad') = (revision, bad)).
Proof.
  inversion 1 as [| | | |ps v c h3 Hps Hi Hg Hb Ha He Hnext]; subst.
  exists v. split; [unfold inside in Hi; lia|].
  destruct (truthy c); auto.
Qed.

(** The whole loop is tame, and a pair it returns is inside the bracket
    it started from. *)
Lemma bisect_loop_tame fuel isManual iterations : ∀ good bad h r h',
  bisect_loop available fetch child fuel iterations isManual good bad h
    = (r, h') →
  ∃ evs,
    journal h' = journal h ++ evs ∧
    Forall (tame (Z.min good bad) (Z.max good bad) (local h)) evs ∧
    local h ⊆ local h' ∧
    ∀ good' bad', r = Val (good', bad') →
      Z.min good bad ≤ Z.min good' bad' ∧ Z.max good' bad' ≤ Z.max good bad.
Proof.
  induction iterations as [|n IH]; intros good bad h r h'; simpl.
  { intros [= <- <-]. exists []. rewrite app_nil_r. by split_and!. }
  unfold bind at 1.
  destruct (bisect_body available fetch child fuel isManual good bad h)
    as [[[[g1 b1]|]|x] h1] eqn:Hbody;
    apply bisect_body_run in Hbody; pose proof Hbody as Htame;
    apply body_run_tame in Htame as (evs & HJ & Hevs & HL & Hkeep).
  - intros Hloop. apply IH in Hloop as (evs' & HJ' & Hevs' & HL' & Hr').
    apply body_run_narrows in Hbody as (v & Hv & Hnext).
    assert (Z.min good bad ≤ Z.min g1 b1 ∧ Z.max g1 b1 ≤ Z.max good bad)
      as [Hlo Hhi] by (destruct Hnext as [[= -> ->]|[= -> ->]]; lia).
    exists (evs ++ evs'). split_and!.
    + by rewrite HJ', HJ, app_assoc.
    + apply Forall_app. split; [done|].
      eapply Forall_impl; [done|]. intros e. by apply tame_weaken.
    + by etrans.
    + intros g' b' Hr. destruct (Hr' g' b' Hr). lia.
  - intros [= <- <-]. exists evs. split_and!; [done..|].
    by intros g' b' [= <- <-].
  - intros [= <- <-]. exists evs. by split_and!.
Qed.

End Engine_facts.

(** ** The claims about the prober and the bracket *)

(** C1, as the code has it.  For every call
    [findDownloadableRevision(rev, from, to)] with [rev] in the bracket and
    nothing downloadable in the bracket, the prober does not return at
    all, with any amount of fuel: once the downward front sits on [min]
    the guard [min <= down] holds for ever, so [return null] is never
    reached.  The claim asks for [null] here. *)
Theorem prober_never_gives_up (available : Z → bool) (rev from to : Z)
    (fuel : nat) (h : host) :
  inside (Z.min from to) (Z.max from to) rev →
  (∀ p, inside (Z.min from to) (Z.max from to) p → available p = false) →
  (findDownloadableRevision available fuel rev from to h).1 = Halt OutOfFuel
  ∧ ∀ available', 
      (findDownloadableRevision available' fuel rev from to h).1 ≠ Val None.
Proof.
  intros Hin Hnone. split; [by apply prober_spins|].
  intros available'.
  destruct (findDownloadableRevision_run available' fuel rev from to Hin)
    as (ps & r & Hrun & _ & _ & Hn & _).
  by rewrite Hrun.
Qed.

Lemma prober_never_gives_up_at_5_in_0_10 :
  (findDownloadableRevision (λ _, false) 1000 5 0 10 (Host ∅ [] [])).1
  = Halt OutOfFuel.
Proof.
  apply (prober_never_gives_up (λ _, false) 5 0 10 1000 (Host ∅ [] [])).
  - unfold inside. lia.
  - done.
Defined.

(** C3.  For every call [findDownloadableRevision(rev, from, to)] with
    [rev] in the bracket [[min(from,to), max(from,to)]]: the calls to
    [canDownload] are exactly the journalled probes [ps], all of them in
    the bracket, and a revision that is returned is in the bracket.
    Consequently a run of [bisect] from [(from, to)] probes only inside
    the bracket and the pair it returns is a subinterval of it. *)
Theorem probes_and_results_stay_in_bracket
    (available : Z → bool) (fetch : Z → option string)
    (child : Z → child_end) (fuel : nat) (isManual : bool)
    (rev from to : Z) (h : host) :
  inside (Z.min from to) (Z.max from to) rev →
  (∃ ps r,
     findDownloadableRevision available fuel rev from to h = (r, probed ps h) ∧
     Forall (inside (Z.min from to) (Z.max from to)) ps ∧
     ∀ v, r = Val (Some v) → inside (Z.min from to) (Z.max from to) v) ∧
  (∃ evs r h',
     bisect available fetch child fuel isManual from to h = (r, h') ∧
     journal h' = journal h ++ evs ∧
     (∀ p, ECanDownload p ∈ evs → inside (Z.min from to) (Z.max from to) p) ∧
     ∀ good' bad', r = Val (good', bad') →
       Z.min from to ≤ Z.min good' bad' ∧
       Z.min good' bad' ≤ Z.max good' bad' ∧
       Z.max good' bad' ≤ Z.max from to).
Proof.
  intros Hin. split.
  - destruct (findDownloadableRevision_run available fuel rev from to Hin)
      as (ps & r & Hrun & Hps & Hv & _).
    exists ps, r. split_and!; [done|done|].
    intros v Hr. by destruct (Hv v Hr).
  - destruct (bisect available fetch child fuel isManual from to h)
      as [r h'] eqn:Hrun.
    apply bisect_loop_tame in Hrun as (evs & HJ & Hevs & _ & Hr).
    exists evs, r, h'. split_and!; [done|done| |].
    + intros p Hp. rewrite Forall_forall in Hevs. apply (Hevs _ Hp).
    + intros g' b' Hval. destruct (Hr g' b' Hval). lia.
Qed.

Lemma probes_of_599821_577361_stay_in_bracket :
  ∃ ps, (findDownloadableRevision
           (λ r, bool_decide (r = 577361) || bool_decide (r = 588600)
                 || bool_decide (r = 599821))
           100 588591 599821 577361 (Host ∅ [] [])).2
        = probed ps (Host ∅ [] []) ∧
        Forall (inside 577361 599821) ps.
Proof.
  destruct (probes_and_results_stay_in_bracket
              (λ r, bool_decide (r = 577361) || bool_decide (r = 588600)
                    || bool_decide (r = 599821))
              (λ _, Some "chrome"%string) (λ _, ChildExit 0) 100 false
              588591 599821 577361 (Host ∅ [] []))
    as [(ps & r & Hrun & Hps & _) _].
  - unfold inside. lia.
  - exists ps. rewrite Hrun. split; [reflexivity|exact Hps].
Defined.

(** C4.  A pass of the loop that completes (it found a candidate other
    than both ends, downloaded it and got a verdict) strictly decreases
    [|good - bad|] and leaves [good] and [bad] different, whichever of the
    two is the larger. *)
Theorem completed_pass_shrinks_span
    (available : Z → bool) (fetch : Z → option string)
    (child : Z → child_end) (fuel : nat) (isManual : bool)
    (good bad : Z) (h : host) (good' bad' : Z) (h' : host) :
  bisect_body available fetch child fuel isManual good bad h
    = (Val (Some (good', bad')), h') →
  Z.abs (good' - bad') < Z.abs (good - bad) ∧ good' ≠ bad'.
Proof.
  intros Hbody. apply bisect_body_run, body_run_narrows in Hbody
    as (v & Hv & [[= -> ->]|[= -> ->]]); lia.
Qed.

Lemma pass_from_599821_577361_shrinks_span :
  Z.abs (588591 - 577361) < Z.abs (599821 - 577361) ∧ 588591 ≠ 577361.
Proof.
  apply (completed_pass_shrinks_span
           (λ _, true) (λ _, Some "chrome"%string) (λ _, ChildExit 0)
           10 false 599821 577361 (Host ∅ [] []) 588591 577361
           (Host ∅ []
              [ECanDownload 588591; EDownload 588591; ERunScript 588591;
               ERemove 588591])).
  vm_compute. reflexivity.
Defined.

(** ** The verdict *)

Section Verdict_facts.
Context (available : Z → bool) (fetch : Z → option string).
Context (child : Z → child_end).

(** A pass whose prober returns a candidate other than 0 and both ends,
    whose download succeeds and whose evaluator returns, completes. *)
Lemma bisect_body_completes fuel (isManual : bool) good bad h revision h1
    path exitCode h3 :
  findDownloadableRevision available fuel (round_half (good + bad)) good bad h
    = (Val (Some revision), h1) →
  revision ≠ 0 → revision ≠ good → revision ≠ bad →
  fetch revision = Some path →
  (if isManual then manual_evaluate else runScript child revision)
    (downloaded revision h1) = (Val exitCode, h3) →
  bisect_body available fetch child fuel isManual good bad h
  = (Val (Some (if truthy exitCode then (good, revision) else (revision, bad))),
     released revision (bool_decide (revision ∈ local h1)) h3).
Proof.
  intros Hfind H0 Hg Hb Hf He. unfold bisect_body.
  unfold bind at 1. rewrite Hfind.
  rewrite !bool_decide_false by done. simpl.
  unfold bind, revisionInfo_local, downloadRevision, browserFetcher_download.
  unfold bind, emit, ret. simpl. rewrite Hf. simpl.
  change (Host ({[revision]} ∪ local h1) (stdin h1)
               (journal h1 ++ [EDownload revision]))
    with (downloaded revision h1).
  rewrite He. unfold released, browserFetcher_remove, bind, emit, ret.
  destruct (bool_decide (revision ∈ local h1)); simpl;
    by destruct (truthy exitCode).
Qed.

End Verdict_facts.

(** C5.  In a pass that completes, the evaluator returned some
    [exitCode] for the candidate [revision], and the next pair is
    [(good, revision)] when the outcome is bad ([exitCode] truthy) and
    [(revision, bad)] otherwise.  In scripted mode, a child that exits
    with [code] makes [exitCode] that number: 0 is the good outcome and
    every other code the bad one. *)
Theorem verdict_moves_one_end
    (available : Z → bool) (fetch : Z → option string)
    (child : Z → child_end) (fuel : nat) (isManual : bool)
    (good bad : Z) (h : host) (next : Z * Z) (h' : host) :
  bisect_body available fetch child fuel isManual good bad h
    = (Val (Some next), h') →
  ∃ ps revision exitCode h3,
    (if isManual then manual_evaluate else runScript child revision)
      (downloaded revision (probed ps h)) = (Val exitCode, h3) ∧
    next = (if truthy exitCode then (good, revision) else (revision, bad)) ∧
    (isManual = false → ∀ code, child revision = ChildExit code →
       exitCode = Code code ∧
       next = if bool_decide (code = 0) then (revision, bad)
              else (good, revision)).
Proof.
  intros Hbody. apply bisect_body_run in Hbody.
  inversion Hbody as [| | | |ps v c h3 Hps Hi Hg Hb Ha He Hnext]; subst.
  exists ps, v, c, h3. split_and!; [done|done|].
  intros -> code Hc. cbv beta iota in He. rewrite runScript_run, Hc in He.
  injection He as <- _. split; [done|]. clear Hbody. simpl.
  case_bool_decide as H0.
  - by rewrite H0.
  - by rewrite (proj2 (Z.eqb_neq code 0)).
Qed.

Lemma verdict_of_exit_code_3_moves_bad :
  ∃ revision, (16, 8) = (16, revision).
Proof.
  destruct (verdict_moves_one_end
              (λ _, true) (λ _, Some "chrome"%string) (λ _, ChildExit 3)
              10 false 16 0 (Host ∅ [] []) (16, 8)
              (Host ∅ []
                 [ECanDownload 8; EDownload 8; ERunScript 8; ERemove 8]))
    as (ps & revision & exitCode & h3 & _ & _ & Hscript).
  - vm_compute. reflexivity.
  - destruct (Hscript eq_refl 3 eq_refl) as [_ Hnext].
    exists revision. exact Hnext.
Defined.

(** C9.  When the child of the scripted evaluator is ended by a signal,
    [runScript] resolves with [null], and the pass completes with
    [good = candidate]: the next pair is [(revision, bad)]. *)
Theorem signal_exit_counts_as_good
    (available : Z → bool) (fetch : Z → option string)
    (child : Z → child_end) (fuel : nat)
    (good bad : Z) (h : host) (revision : Z) (h1 : host)
    (path signal : string) :
  findDownloadableRevision available fuel (round_half (good + bad)) good bad h
    = (Val (Some revision), h1) →
  revision ≠ 0 → revision ≠ good → revision ≠ bad →
  fetch revision = Some path →
  child revision = ChildSignal signal →
  (runScript child revision (downloaded revision h1)).1 = Val Null ∧
  (bisect_body available fetch child fuel false good bad h).1
    = Val (Some (revision, bad)).
Proof.
  intros Hfind H0 Hg Hb Hf Hc.
  assert (He : runScript child revision (downloaded revision h1)
               = (Val Null, Host (local (downloaded revision h1))
                                 (stdin (downloaded revision h1))
                                 (journal (downloaded revision h1)
                                  ++ [ERunScript revision])))
    by (by rewrite runScript_run, Hc).
  split; [by rewrite He|].
  by rewrite (bisect_body_completes available fetch child fuel false
                good bad h revision h1 path Null _ Hfind H0 Hg Hb Hf He).
Qed.

Lemma sigkilled_script_at_8_counts_as_good :
  (bisect_body (λ _, true) (λ _, Some "chrome"%string)
     (λ _, ChildSignal "SIGKILL") 10 false 0 16 (Host ∅ [] [])).1
  = Val (Some (8, 16)).
Proof.
  apply (signal_exit_counts_as_good
           (λ _, true) (λ _, Some "chrome"%string)
           (λ _, ChildSignal "SIGKILL") 10 0 16 (Host ∅ [] []) 8
           (Host ∅ [] [ECanDownload 8]) "chrome" "SIGKILL").
  - vm_compute. reflexivity.
  - lia.
  - lia.
  - lia.
  - reflexivity.
  - reflexivity.
Defined.

(** ** The download directory *)

(** C7.  In a pass that completes, the journal grows by the probes, the
    download of the candidate, the evaluator's own events and then, if
    and only if the candidate was not in the download directory when
    [revisionInfo(revision).local] was read before the download, its
    removal; the directory ends the pass as it began.  Over a whole run,
    however it ends, no revision that was in the directory at the start
    is removed, and each is still there at the end. *)
Theorem fresh_downloads_are_removed_and_old_ones_kept
    (available : Z → bool) (fetch : Z → option string)
    (child : Z → child_end) (fuel : nat) (isManual : bool)
    (good bad : Z) (h : host) :
  (∀ next h',
     bisect_body available fetch child fuel isManual good bad h
       = (Val (Some next), h') →
     ∃ ps revision evaluation,
       Forall is_evaluation evaluation ∧
       journal h' =
         journal h ++ (ECanDownload <$> ps) ++ [EDownload revision]
         ++ evaluation
         ++ (if bool_decide (revision ∈ local h) then []
             else [ERemove revision]) ∧
       local h' = local h) ∧
  (∀ r h',
     bisect available fetch child fuel isManual good bad h = (r, h') →
     ∃ evs,
       journal h' = journal h ++ evs ∧
       ∀ v, v ∈ local h → (ERemove v ∉ evs) ∧ (v ∈ local h')).
Proof.
  split.
  - intros next h' Hbody. apply bisect_body_run in Hbody.
    inversion Hbody as [| | | |ps v c h3 Hps Hi Hg Hb Ha He Hnext]; subst.
    clear Hbody.
    apply evaluator_quiet in He as (HL & evs & HJ & Hevs). simpl in HL, HJ.
    exists ps, v, evs. split; [done|].
    unfold released. case_bool_decide as Hloc; simpl.
    + split; [by rewrite HJ, <- !app_assoc, app_nil_r|].
      rewrite HL. clear -Hloc. set_solver.
    + split; [by rewrite HJ, <- !app_assoc|].
      rewrite HL. clear -Hloc. set_solver.
  - intros r h' Hrun.
    apply bisect_loop_tame in Hrun as (evs & HJ & Hevs & HL & _).
    exists evs. split; [done|]. intros v Hv. split; [|by apply HL].
    intros Hrem. rewrite Forall_forall in Hevs. by apply (Hevs _ Hrem).
Qed.

Lemma run_keeps_revision_8_that_was_local :
  ∃ evs,
    [ECanDownload 8; EDownload 8; ERunScript 8; ECanDownload 4;
     EDownload 4; ERunScript 4; ERemove 4; ECanDownload 6; EDownload 6;
     ERunScript 6; ERemove 6; ECanDownload 7; EDownload 7; ERunScript 7;
     ERemove 7; ECanDownload 7] = [] ++ evs ∧
    ERemove 8 ∉ evs.
Proof.
  destruct (fresh_downloads_are_removed_and_old_ones_kept
              (λ _, true) (λ _, Some "chrome"%string)
              (λ r, if bool_decide (r < 7) then ChildExit 0 else ChildExit 1)
              30 false 0 16 (Host {[8]} [] [])) as [_ Hrun].
  destruct (Hrun (Val (6, 7))
              (Host {[8]} []
                 [ECanDownload 8; EDownload 8; ERunScript 8; ECanDownload 4;
                  EDownload 4; ERunScript 4; ERemove 4; ECanDownload 6;
                  EDownload 6; ERunScript 6; ERemove 6; ECanDownload 7;
                  EDownload 7; ERunScript 7; ERemove 7; ECanDownload 7]))
    as (evs & HJ & Hkeep).
  - vm_compute. reflexivity.
  - exists evs. split; [exact HJ|].
    destruct (Hkeep 8) as [Hnot _]; [|exact Hnot].
    simpl. apply elem_of_singleton. reflexivity.
Defined.

(** ** Termination *)

(** C2, as the code has it.  When no revision of the bracket is
    downloadable, the very first pass never leaves the prober, so the run
    returns no pair with any amount of fuel.  The claim asks for
    termination for all [good != bad]. *)
Theorem bisect_hangs_on_an_empty_bracket
    (available : Z → bool) (fetch : Z → option string)
    (child : Z → child_end) (fuel : nat) (isManual : bool)
    (good bad : Z) (h : host) :
  (∀ p, inside (Z.min good bad) (Z.max good bad) p → available p = false) →
  (bisect available fetch child fuel isManual good bad h).1 = Halt OutOfFuel.
Proof.
  intros Hnone. unfold bisect. destruct fuel as [|n] at 2; [done|].
  simpl. unfold bind at 1. unfold bisect_body. unfold bind at 1.
  pose proof (prober_spins available fuel (round_half (good + bad)) good bad
                h (round_half_inside good bad) Hnone) as Hspin.
  destruct (findDownloadableRevision available fuel
              (round_half (good + bad)) good bad h) as [r h1].
  simpl in Hspin. by rewrite Hspin.
Qed.

Lemma bisect_hangs_between_577361_and_577363 :
  (bisect (λ _, false) (λ _, Some "chrome"%string) (λ _, ChildExit 0)
     1000 false 577361 577363 (Host ∅ [] [])).1
  = Halt OutOfFuel.
Proof.
  apply (bisect_hangs_on_an_empty_bracket
           (λ _, false) (λ _, Some "chrome"%string) (λ _, ChildExit 0)
           1000 false 577361 577363 (Host ∅ [] [])).
  intros p _. reflexivity.
Defined.

(** ** The journal is write-only *)


Lemma blind_ret {A} (a : A) : blind (ret a).
Proof. by intros h1 h2 H. Qed.

Lemma blind_stop {A} x : blind (@stop A x).
Proof. by intros h1 h2 H. Qed.

Lemma blind_bind {A B} (m : M A) (k : A → M B) :
  blind m → (∀ a, blind (k a)) → blind (bind m k).
Proof.
  intros Hm Hk h1 h2 H. unfold bind.
  destruct (Hm h1 h2 H) as [Hv Hh].
  destruct (m h1) as [[a1|x1] h1'], (m h2) as [[a2|x2] h2'];
    simpl in Hv, Hh; try discriminate.
  - injection Hv as ->. by apply Hk.
  - by injection Hv as ->.
Qed.

Lemma blind_emit e : blind (emit e).
Proof. by intros h1 h2 H. Qed.

Lemma blind_if {A} (b : bool) (m1 m2 : M A) :
  blind m1 → blind m2 → blind (if b then m1 else m2).
Proof. by destruct b. Qed.

Section Blind_facts.
Context (available : Z → bool) (fetch : Z → option string).
Context (child : Z → child_end).

Lemma blind_canDownload revision : blind (canDownload available revision).
Proof. apply blind_bind; [apply blind_emit|intros; apply blind_ret]. Qed.

Lemma blind_probe_loop fuel min max : ∀ down up,
  blind (probe_loop available fuel min max down up).
Proof.
  induction fuel as [|fuel IH]; intros down up; simpl.
  - apply blind_stop.
  - apply blind_if; [|apply blind_ret].
    apply blind_bind.
    { apply blind_if; [apply blind_canDownload|apply blind_ret]. }
    intros downOk. apply blind_bind.
    { apply blind_if; [apply blind_canDownload|apply blind_ret]. }
    intros upOk. repeat apply blind_if; auto using @blind_ret.
Qed.

Lemma blind_findDownloadableRevision fuel rev from to :
  blind (findDownloadableRevision available fuel rev from to).
Proof.
  apply blind_bind; [apply blind_canDownload|].
  intros ok. apply blind_if; [apply blind_ret|apply blind_probe_loop].
Qed.

Lemma blind_manual_loop lines : blind (manual_loop lines).
Proof.
  induction lines as [|line rest IH]; intros h1 h2 H; simpl.
  - done.
  - assert (Hnext : alike
      (Host (local h1) rest (journal h1 ++ [EQuestion line]))
      (Host (local h2) rest (journal h2 ++ [EQuestion line])))
      by (destruct H; by split).
    destruct (manual_answer line); [by apply IH|done..].
Qed.

Lemma blind_manual_evaluate : blind manual_evaluate.
Proof.
  intros h1 h2 H. unfold manual_evaluate.
  destruct H as [HL HS]. rewrite HS. by apply blind_manual_loop.
Qed.

Lemma blind_runScript revision : blind (runScript child revision).
Proof.
  apply blind_bind; [apply blind_emit|]. intros _.
  destruct (child revision); auto using @blind_ret, @blind_stop.
Qed.

Lemma blind_download revision : blind (downloadRevision fetch revision).
Proof.
  apply blind_bind; [apply blind_emit|]. intros _.
  destruct (fetch revision); [|apply blind_ret].
  intros h1 h2 [HL HS]. simpl. split; [done|]. split; simpl; congruence.
Qed.

Lemma blind_remove revision : blind (browserFetcher_remove revision).
Proof.
  apply blind_bind; [apply blind_emit|]. intros _.
  intros h1 h2 [HL HS]. simpl. split; [done|]. split; simpl; congruence.
Qed.

Lemma blind_revisionInfo_local revision : blind (revisionInfo_local revision).
Proof.
  intros h1 h2 [HL HS]. unfold revisionInfo_local. simpl. by rewrite HL.
Qed.

Lemma blind_bisect_body fuel isManual good bad :
  blind (bisect_body available fetch child fuel isManual good bad).
Proof.
  apply blind_bind; [apply blind_findDownloadableRevision|].
  intros [revision|]; [|apply blind_ret].
  apply blind_if; [apply blind_ret|].
  apply blind_bind; [apply blind_revisionInfo_local|]. intros isLocal.
  apply blind_bind; [apply blind_download|].
  intros [path|]; [|apply blind_stop].
  apply blind_bind.
  { apply blind_if; [apply blind_manual_evaluate|apply blind_runScript]. }
  intros exitCode. apply blind_bind.
  { apply blind_if; [apply blind_remove|apply blind_ret]. }
  intros _. apply blind_if; apply blind_ret.
Qed.

Lemma blind_bisect_loop fuel isManual iterations : ∀ good bad,
  blind (bisect_loop available fetch child fuel iterations isManual good bad).
Proof.
  induction iterations as [|n IH]; intros good bad; simpl.
  - apply blind_stop.
  - apply blind_bind; [apply blind_bisect_body|].
    intros [[g b]|]; [apply IH|apply blind_ret].
Qed.

End Blind_facts.

(** ** Answers at the prompts *)

Section Prompt_facts.
Context (available : Z → bool) (fetch : Z → option string).
Context (child : Z → child_end).


Lemma blind_after_download isManual good bad revision wasLocal :
  blind (after_download child isManual good bad revision wasLocal).
Proof.
  apply blind_bind.
  { apply blind_if; [apply blind_manual_evaluate|apply blind_runScript]. }
  intros exitCode. apply blind_bind.
  { apply blind_if; [apply blind_remove|apply blind_ret]. }
  intros _. apply blind_if; apply blind_ret.
Qed.

(** A pass, spelled out by what the prober returned. *)
Lemma bisect_body_unfold fuel isManual good bad h r h1 :
  findDownloadableRevision available fuel (round_half (good + bad)) good bad h
    = (r, h1) →
  bisect_body available fetch child fuel isManual good bad h =
  match r with
  | Halt x => (Halt x, h1)
  | Val None => (Val None, h1)
  | Val (Some revision) =>
      if bool_decide (revision = 0) || bool_decide (revision = good)
         || bool_decide (revision = bad)
      then (Val None, h1)
      else
        match fetch revision with
        | None =>
            (Halt (ProcessExit 1),
             Host (local h1) (stdin h1) (journal h1 ++ [EDownload revision]))
        | Some _ =>
            after_download child isManual good bad revision
              (bool_decide (revision ∈ local h1)) (downloaded revision h1)
        end
  end.
Proof.
  intros Hfind. unfold bisect_body. unfold bind at 1. rewrite Hfind.
  destruct r as [[v|]|x]; [|done..].
  destruct (bool_decide (v = 0) || bool_decide (v = good)
            || bool_decide (v = bad)); [done|].
  unfold bind at 1. unfold revisionInfo_local at 1.
  unfold bind at 1. unfold downloadRevision, browserFetcher_download.
  unfold bind at 1. unfold emit at 1.
  destruct (fetch v); reflexivity.
Qed.

(** A line the manual prompt does not recognise is taken off standard
    input and asked again: the evaluation goes on as if it had not been
    typed, but for the journal. *)
Lemma manual_evaluate_skips line rest L J :
  manual_answer line = Undefined →
  manual_evaluate (Host L (line :: rest) J)
  = manual_evaluate (Host L rest (J ++ [EQuestion line])).
Proof. intros Ha. unfold manual_evaluate. simpl. by rewrite Ha. Qed.

Lemma after_download_skips good bad revision wasLocal line rest L J :
  manual_answer line = Undefined →
  after_download child true good bad revision wasLocal (Host L (line :: rest) J)
  = after_download child true good bad revision wasLocal
      (Host L rest (J ++ [EQuestion line])).
Proof.
  intros Ha. unfold after_download. unfold bind at 1 3.
  by rewrite (manual_evaluate_skips line rest L J Ha).
Qed.

Lemma pass_skips_unrecognised_line fuel good bad line rest L J :
  manual_answer line = Undefined →
  (bisect_body available fetch child fuel true good bad
     (Host L (line :: rest) J)).1
  = (bisect_body available fetch child fuel true good bad
       (Host L rest J)).1
  ∧ ∀ next,
      (bisect_body available fetch child fuel true good bad
         (Host L rest J)).1 = Val (Some next) →
      alike (bisect_body available fetch child fuel true good bad
               (Host L (line :: rest) J)).2
            (bisect_body available fetch child fuel true good bad
               (Host L rest J)).2.
Proof.
  intros Ha.
  destruct (findDownloadableRevision_run available fuel
              (round_half (good + bad)) good bad (round_half_inside good bad))
    as (ps & r & Hrun & _).
  rewrite !(bisect_body_unfold fuel true good bad _ r _ (Hrun _)).
  destruct r as [[v|]|x]; [|done..].
  destruct (bool_decide (v = 0) || bool_decide (v = good)
            || bool_decide (v = bad)); [done|].
  destruct (fetch v); [|done].
  unfold downloaded, probed. simpl.
  rewrite (after_download_skips good bad v _ line rest _ _ Ha).
  destruct (blind_after_download true good bad v (bool_decide (v ∈ L))
    (Host ({[v]} ∪ L) rest
       (((J ++ (ECanDownload <$> ps)) ++ [EDownload v]) ++ [EQuestion line]))
    (Host ({[v]} ∪ L) rest ((J ++ (ECanDownload <$> ps)) ++ [EDownload v]))
    ltac:(by split)) as [Hv Hh].
  split; [exact Hv|]. intros _ _. exact Hh.
Qed.

Lemma loop_skips_unrecognised_line fuel n good bad line rest L J :
  manual_answer line = Undefined →
  (bisect_loop available fetch child fuel n true good bad
     (Host L (line :: rest) J)).1
  = (bisect_loop available fetch child fuel n true good bad
       (Host L rest J)).1.
Proof.
  intros Ha. destruct n as [|n]; [done|]. simpl. unfold bind.
  destruct (pass_skips_unrecognised_line fuel good bad line rest L J Ha)
    as [Hv Hh].
  destruct (bisect_body available fetch child fuel true good bad
              (Host L (line :: rest) J)) as [r1 h1],
           (bisect_body available fetch child fuel true good bad
              (Host L rest J)) as [r2 h2].
  simpl in Hv, Hh. subst r2.
  destruct r1 as [[[g b]|]|x]; [|done..].
  by apply blind_bisect_loop, (Hh (g, b)).
Qed.

End Prompt_facts.

(** ** When something is downloadable *)

Section Returns_facts.
Context (available : Z → bool) (fetch : Z → option string).
Context (child : Z → child_end).

(** With an available revision of the bracket still outside the fronts,
    the loop returns a revision as soon as the fuel covers the distance
    the fronts have left to go. *)
Lemma probe_loop_returns fuel min max : ∀ down up h,
  min ≤ down → down ≤ up → up ≤ max →
  (∃ q, inside min max q ∧ available q = true ∧ (q < down ∨ up < q)) →
  (Z.to_nat ((down - min) + (max - up)) ≤ fuel)%nat →
  ∃ v, (probe_loop available fuel min max down up h).1 = Val (Some v).
Proof.
  induction fuel as [|fuel IH];
    intros down up h Hd Hdu Hu (q & [Hq1 Hq2] & Hq & Hout) Hfuel.
  { lia. }
  simpl. rewrite (bool_decide_true (min ≤ down)) by done. simpl.
  unfold probe, bind, canDownload, emit, ret.
  destruct (decide (down > min)) as [Gd|Gd];
    [rewrite (bool_decide_true _ Gd)|rewrite (bool_decide_false _ Gd)];
  (destruct (decide (up < max)) as [Gu|Gu];
    [rewrite (bool_decide_true _ Gu)|rewrite (bool_decide_false _ Gu)]);
  simpl.
  - destruct (available (down - 1)) eqn:Ad; [by eexists|].
    destruct (available (up + 1)) eqn:Au; [by eexists|].
    apply IH; [lia..| |lia].
    exists q. split_and!; [done..|].
    assert (q ≠ down - 1 ∧ q ≠ up + 1) by (split; congruence). lia.
  - destruct (available (down - 1)) eqn:Ad; [by eexists|].
    apply IH; [lia..| |lia].
    exists q. split_and!; [done..|].
    assert (q ≠ down - 1) by congruence. lia.
  - destruct (available (up + 1)) eqn:Au; [by eexists|].
    apply IH; [lia..| |lia].
    exists q. split_and!; [done..|].
    assert (q ≠ up + 1) by congruence. lia.
  - lia.
Qed.

(** The prober returns a revision whenever the bracket holds an available
    one and the fuel covers the width of the bracket. *)
Lemma findDownloadableRevision_returns fuel rev from to h :
  inside (Z.min from to) (Z.max from to) rev →
  (∃ q, inside (Z.min from to) (Z.max from to) q ∧ available q = true) →
  (Z.to_nat (Z.max from to - Z.min from to) ≤ fuel)%nat →
  ∃ v, (findDownloadableRevision available fuel rev from to h).1
       = Val (Some v).
Proof.
  intros [Hr1 Hr2] (q & Hq & Ha) Hfuel.
  unfold findDownloadableRevision, bind, canDownload, emit, ret. simpl.
  destruct (available rev) eqn:Ar; [by eexists|].
  apply probe_loop_returns; [lia..| |lia].
  exists q. split_and!; [done..|].
  assert (q ≠ rev) by congruence. lia.
Qed.

(** A scripted run over a bracket that holds an available revision
    returns a pair, provided downloads succeed and the script can be
    spawned, once the fuel exceeds the span: every pass either stops the
    loop or moves an end to an available revision strictly inside. *)
Lemma bisect_loop_returns fuel n : ∀ good bad h,
  (∀ r, is_Some (fetch r)) →
  (∀ r, child r ≠ ChildError) →
  (∃ q, inside (Z.min good bad) (Z.max good bad) q ∧ available q = true) →
  (Z.to_nat (Z.abs (good - bad)) ≤ fuel)%nat →
  (Z.to_nat (Z.abs (good - bad)) < n)%nat →
  ∃ pair,
    (bisect_loop available fetch child fuel n false good bad h).1 = Val pair.
Proof.
  induction n as [|n IH]; intros good bad h Hfetch Hchild Hq Hfuel Hn.
  { lia. }
  simpl. unfold bind at 1.
  destruct (findDownloadableRevision_run available fuel
              (round_half (good + bad)) good bad (round_half_inside good bad))
    as (ps & r & Hrun & _ & Hv & _).
  destruct (findDownloadableRevision_returns fuel (round_half (good + bad))
              good bad h (round_half_inside good bad) Hq ltac:(lia))
    as (v & Hret).
  rewrite Hrun in Hret. simpl in Hret. subst r.
  destruct (Hv v eq_refl) as [[Hv1 Hv2] Ha].
  rewrite (bisect_body_unfold available fetch child fuel false good bad h
             _ _ (Hrun h)).
  destruct (bool_decide (v = 0) || bool_decide (v = good)
            || bool_decide (v = bad)) eqn:Hstop; [by eexists|].
  apply orb_false_elim in Hstop as [Hstop Hb].
  apply orb_false_elim in Hstop as [_ Hg].
  apply bool_decide_eq_false in Hg, Hb.
  destruct (Hfetch v) as [path ->].
  unfold after_download. unfold bind at 1. rewrite runScript_run.
  assert (∃ c, match child v with
               | ChildExit code => Val (Code code)
               | ChildSignal _ => Val Null
               | ChildError => Halt Rejected
               end = Val c) as [c ->].
  { specialize (Hchild v). destruct (child v); by eauto. }
  unfold bind, browserFetcher_remove, emit, ret.
  destruct (negb (bool_decide (v ∈ local (probed ps h)))); simpl;
    destruct (truthy c); simpl; apply IH; try done;
    try (exists v; unfold inside; split; [lia|done]); lia.
Qed.

(** So the only runs of the scripted engine that do not return are those
    over a bracket in which nothing is downloadable. *)
Lemma bisect_returns fuel good bad h :
  (∀ r, is_Some (fetch r)) →
  (∀ r, child r ≠ ChildError) →
  (∃ q, inside (Z.min good bad) (Z.max good bad) q ∧ available q = true) →
  (Z.to_nat (Z.abs (good - bad)) < fuel)%nat →
  ∃ pair, (bisect available fetch child fuel false good bad h).1 = Val pair.
Proof.
  intros Hfetch Hchild Hq Hfuel. unfold bisect.
  apply bisect_loop_returns; [done..|lia|done].
Qed.

End Returns_facts.

(** ** default.js *)

(** [isGood] of default.js on its first line. *)
Lemma isGood_good line rest :
  toLowerCase line ∈ DefaultScript.goodAnswers →
  DefaultScript.isGood (line :: rest) = (Some true, rest).
Proof.
  intros H. simpl. unfold DefaultScript.ask. by rewrite bool_decide_true.
Qed.

Lemma isGood_bad line rest :
  toLowerCase line ∈ ({[ "b"; "bad"; "n" ]} : gset string) →
  DefaultScript.isGood (line :: rest) = (Some false, rest).
Proof.
  intros H. simpl. unfold DefaultScript.ask. set_unfold in H.
  repeat destruct H as [H|H]; rewrite H; reflexivity.
Qed.

Lemma isGood_again line rest :
  toLowerCase line ∉ DefaultScript.goodAnswers ∪ DefaultScript.badAnswers →
  DefaultScript.isGood (line :: rest) = DefaultScript.isGood rest.
Proof.
  intros H. simpl. unfold DefaultScript.ask.
  rewrite !bool_decide_false; [done|set_solver..].
Qed.

(** C6, as the code has it.  At the engine's own prompt (manual mode) the
    answer is trimmed and lower-cased; "GOOD" and "g" give the good
    outcome and "bad" the bad one, and those are the only kinds of answer
    that resolve: [exitCode] becomes 0 exactly for "g"/"good" and 1
    exactly for "b"/"bad".  Any other line, [line] here, is asked again:
    the evaluation, the pass and the whole run go on as if the line had
    not been typed, so no iteration is consumed and [good]/[bad] are what
    they would have been.  In default.js, [isGood] lower-cases the
    answer; "g", "good", "y", "yes" give good, "b", "bad", "n" give bad,
    and a line that is none of these nor "no" nor " no" is asked again. *)
Theorem answers_resolve_or_are_asked_again
    (available : Z → bool) (fetch : Z → option string)
    (child : Z → child_end) (fuel : nat) (good bad : Z)
    (line : string) (rest : list string) (L : gset Z) (J : list event) :
  manual_answer line = Undefined →
  (manual_answer "GOOD" = Code 0 ∧ manual_answer "g" = Code 0 ∧
   manual_answer "bad" = Code 1) ∧
  (∀ l, manual_answer l = Code 0 ↔
        toLowerCase (trim l) = "g" ∨ toLowerCase (trim l) = "good") ∧
  (∀ l, manual_answer l = Code 1 ↔
        toLowerCase (trim l) = "b" ∨ toLowerCase (trim l) = "bad") ∧
  manual_evaluate (Host L (line :: rest) J)
    = manual_evaluate (Host L rest (J ++ [EQuestion line])) ∧
  (bisect_body available fetch child fuel true good bad
     (Host L (line :: rest) J)).1
    = (bisect_body available fetch child fuel true good bad
         (Host L rest J)).1 ∧
  (bisect available fetch child fuel true good bad
     (Host L (line :: rest) J)).1
    = (bisect available fetch child fuel true good bad (Host L rest J)).1 ∧
  (∀ l ls, toLowerCase l ∈ ({[ "g"; "good"; "y"; "yes" ]} : gset string) →
           DefaultScript.isGood (l :: ls) = (Some true, ls)) ∧
  (∀ l ls, toLowerCase l ∈ ({[ "b"; "bad"; "n" ]} : gset string) →
           DefaultScript.isGood (l :: ls) = (Some false, ls)) ∧
  (∀ l ls,
     toLowerCase l ∉ ({[ "g"; "good"; "y"; "yes"; "b"; "bad"; "n"; "no";
                         " no" ]} : gset string) →
     DefaultScript.isGood (l :: ls) = DefaultScript.isGood ls).
Proof.
  intros Ha. split_and!.
  - reflexivity.
  - reflexivity.
  - reflexivity.
  - intros l. unfold manual_answer.
    repeat case_bool_decide; simpl; split; intros Hl; try done;
      try (by left); try (by right); destruct Hl; congruence.
  - intros l. unfold manual_answer.
    repeat case_bool_decide; simpl; split; intros Hl; try done;
      try (by left); try (by right); destruct Hl; congruence.
  - by apply manual_evaluate_skips.
  - by apply pass_skips_unrecognised_line.
  - by apply loop_skips_unrecognised_line.
  - apply isGood_good.
  - apply isGood_bad.
  - intros l ls Hl. apply isGood_again.
    unfold DefaultScript.goodAnswers, DefaultScript.badAnswers.
    clear -Hl. set_solver.
Qed.

Lemma yes_is_asked_again_at_the_manual_prompt :
  manual_evaluate (Host ∅ ["yes"; "g"]%string [])
  = manual_evaluate (Host ∅ ["g"%string] [EQuestion "yes"]).
Proof.
  apply (answers_resolve_or_are_asked_again
           (λ _, true) (λ _, Some "chrome"%string) (λ _, ChildExit 0)
           10 0 16 "yes" ["g"%string] ∅ []).
  reflexivity.
Defined.

(** At the engine's prompt, "yes" does not give the good outcome, and
    neither "n" nor "no" gives the bad one: each leaves [exitCode]
    undefined, and the question is asked again. *)
Lemma manual_prompt_rejects_yes_n_no :
  manual_answer "yes" ≠ Code 0 ∧ manual_answer "n" ≠ Code 1 ∧
  manual_answer "no" ≠ Code 1.
Proof. by split_and!. Qed.

(** ** The launcher *)

Module LauncherFacts.
Import Launcher.


(** [killChrome] spelled out: it completes normally whatever the kill and
    the removal did, attempts the kill only for a process with a pid that
    is neither [killed] nor known to have exited, and removes the
    launcher's own temporary directory, if it made one, and nothing
    else. *)
Lemma killChrome_run c w :
  ∃ c' w',
    killChrome c w = Normal (c', w') ∧
    temporaryUserDataDir c' = temporaryUserDataDir c ∧
    pid c' = pid c ∧ killed c' = killed c ∧
    chromeClosed c' = chromeClosed c ∧
    listeners c' = [] ∧
    kills w' = kills w ++ kill_attempted c w ∧
    win32 w' = win32 w ∧
    dirs w' = match temporaryUserDataDir c with
              | Some d => dirs w ∖ {[d]}
              | None => dirs w
              end.
Proof.
  unfold killChrome, kill_attempted, and_then, try_catch, skip.
  destruct (pid_truthy (pid c)) as [p|]; simpl.
  - destruct (negb (killed c) && negb (chromeClosed c)); simpl;
      destruct (temporaryUserDataDir c); simpl;
      eexists _, _; split_and!; try reflexivity;
      simpl; by rewrite ?app_nil_r.
  - destruct (temporaryUserDataDir c); simpl;
      eexists _, _; split_and!; try reflexivity;
      simpl; by rewrite ?app_nil_r.
Qed.

Lemma step_run a c w :
  ∃ c' w',
    step a (c, w) = Normal (c', w') ∧
    temporaryUserDataDir c' = temporaryUserDataDir c ∧
    win32 w' = win32 w ∧
    dirs w' = match temporaryUserDataDir c with
              | Some d => dirs w ∖ {[d]}
              | None => dirs w
              end.
Proof.
  destruct a; simpl.
  - unfold gracefullyCloseChrome.
    destruct (killChrome_run c w)
      as (c' & w' & -> & Ht & _ & _ & _ & _ & _ & Hw & Hd).
    by exists c', w'.
  - destruct (killChrome_run c w)
      as (c' & w' & -> & Ht & _ & _ & _ & _ & _ & Hw & Hd).
    by exists c', w'.
  - unfold chrome_exited. eexists _, _. split; [reflexivity|]. simpl.
    by destruct (temporaryUserDataDir c).
Qed.

(** No sequence of closes and exit events throws; with no temporary
    directory of the launcher's own, none of them touches a directory. *)
Lemma steps_run acts : ∀ c w,
  ∃ c' w',
    steps acts (c, w) = Normal (c', w') ∧
    temporaryUserDataDir c' = temporaryUserDataDir c ∧
    (temporaryUserDataDir c = None → dirs w' = dirs w).
Proof.
  induction acts as [|a acts IH]; intros c w; simpl.
  - by exists c, w.
  - destruct (step_run a c w) as (c1 & w1 & -> & Ht1 & _ & Hd1).
    destruct (IH c1 w1) as (c2 & w2 & -> & Ht2 & Hd2).
    exists c2, w2. split_and!; [done|congruence|].
    intros Hnone. rewrite Hd2 by congruence. by rewrite Hnone in Hd1.
Qed.

(** C8, as the code has it.  Calling the capability [launch] returns any
    number of times, with exit events of the child in between or not,
    produces no error.  A call made once the child's exit has been seen
    ([chromeClosed]) attempts no kill; in particular, when the exit event
    is delivered between two calls (the first call was awaited), the
    second call adds no kill to those of the first. *)
Theorem close_again_after_exit_kills_nothing (c : chrome) (w : os)
    (acts : list action) :
  (∃ cw', steps acts (c, w) = Normal cw') ∧
  (chromeClosed c = true →
   ∃ cw', steps [Close] (c, w) = Normal cw' ∧ kills cw'.2 = kills w) ∧
  (∃ cw1 cw3,
     steps [Close] (c, w) = Normal cw1 ∧
     steps [Close; ChromeExit; Close] (c, w) = Normal cw3 ∧
     kills cw3.2 = kills cw1.2).
Proof.
  split_and!.
  - destruct (steps_run acts c w) as (c' & w' & Hrun & _).
    by exists (c', w').
  - intros Hclosed. simpl. unfold gracefullyCloseChrome.
    destruct (killChrome_run c w)
      as (c1 & w1 & -> & _ & _ & _ & _ & _ & Hk & _).
    exists (c1, w1). split; [done|]. simpl. rewrite Hk.
    unfold kill_attempted. rewrite Hclosed, andb_false_r.
    destruct (pid_truthy (pid c)); by rewrite app_nil_r.
  - cbn -[killChrome chrome_exited]. unfold gracefullyCloseChrome.
    destruct (killChrome_run c w)
      as (c1 & w1 & -> & _ & _ & _ & _ & _ & Hk1 & _).
    cbn -[killChrome chrome_exited].
    destruct (killChrome_run (chrome_exited c1 w1).1 (chrome_exited c1 w1).2)
      as (c3 & w3 & -> & _ & _ & _ & _ & _ & Hk3 & _).
    exists (c1, w1), (c3, w3). split_and!; [done|done|]. simpl.
    rewrite Hk3. unfold kill_attempted, chrome_exited. simpl.
    rewrite andb_false_r.
    destruct (pid_truthy (pid c1)), (temporaryUserDataDir c1);
      by rewrite app_nil_r.
Qed.

(** Two calls of the capability with no event-loop turn between them each
    attempt the kill: the child's exit has not been seen yet, and
    [process.kill] does not set [chromeProcess.killed]. *)
Lemma back_to_back_close_kills_twice :
  ∃ cw1 cw2,
    steps [Close]
      (launch (Options (IgnoreFlag false) [] None false true true true)
         "Xa3b9Q" (Some 4242) (Os ∅ ∅ [] [] false)) = Normal cw1 ∧
    steps [Close; Close]
      (launch (Options (IgnoreFlag false) [] None false true true true)
         "Xa3b9Q" (Some 4242) (Os ∅ ∅ [] [] false)) = Normal cw2 ∧
    kills cw1.2 = [Sigkill 4242] ∧
    kills cw2.2 = [Sigkill 4242; Sigkill 4242].
Proof.
  eexists _, _. split_and!; [vm_compute; reflexivity..|reflexivity|reflexivity].
Qed.

(** When [ignoreDefaultArgs] is a boolean, every argument the caller
    passed is among the arguments line 348 tests. *)
Lemma initialArguments_keeps_args o b arg :
  ignoreDefaultArgs o = IgnoreFlag b → arg ∈ args o →
  arg ∈ initialArguments o.
Proof.
  intros Hflag Harg. unfold initialArguments. rewrite Hflag.
  destruct b; [done|]. unfold defaultArgs.
  rewrite !elem_of_app. auto.
Qed.

Lemma profile_in_args_is_seen o b arg :
  ignoreDefaultArgs o = IgnoreFlag b → arg ∈ args o →
  startsWith arg "--user-data-dir" = true →
  existsb (λ arg, startsWith arg "--user-data-dir") (initialArguments o)
  = true.
Proof.
  intros Hflag Harg Hstarts. apply existsb_exists. exists arg.
  split; [|done]. apply list_elem_of_In.
  by eapply initialArguments_keeps_args.
Qed.

(** C10.  For every launch whose argument list, as line 348 tests it,
    contains an argument starting with [--user-data-dir]: no temporary
    profile directory is made ([temporaryUserDataDir] stays [null] and
    the directories are those from before the launch); removing [null]
    throws; and whatever sequence of closes and exit events follows, none
    throws, [temporaryUserDataDir] stays [null], and the directories are
    still those from before the launch, the caller's among them.  (With
    a boolean [ignoreDefaultArgs], an argument of [options.args] that
    starts with [--user-data-dir] is such an argument:
    [profile_in_args_is_seen].) *)
Theorem caller_profile_is_never_removed (o : options) (suffix : string)
    (spawned : option Z) (w : os) (acts : list action) :
  existsb (λ arg, startsWith arg "--user-data-dir") (initialArguments o)
    = true →
  temporaryUserDataDir (launch o suffix spawned w).1 = None ∧
  dirs (launch o suffix spawned w).2 = dirs w ∧
  (∀ w', ∃ e, removeFolder_sync None w' = (Throw e, w')) ∧
  ∃ c' w',
    steps acts (launch o suffix spawned w) = Normal (c', w') ∧
    temporaryUserDataDir c' = None ∧
    dirs w' = dirs w.
Proof.
  intros Hgiven.
  assert (Ht : temporaryUserDataDir (launch o suffix spawned w).1 = None)
    by (unfold launch; simpl; by rewrite Hgiven).
  assert (Hd : dirs (launch o suffix spawned w).2 = dirs w)
    by (unfold launch; simpl; by rewrite Hgiven).
  split_and!; [done|done|by eexists|].
  destruct (launch o suffix spawned w) as [c0 w0]. simpl in Ht, Hd.
  destruct (steps_run acts c0 w0) as (c' & w' & Hrun & Ht' & Hd').
  exists c', w'. split_and!; [done|congruence|].
  by rewrite Hd'.
Qed.

Lemma profile_given_in_args_survives_close :
  ∃ c' w',
    steps [Close; ChromeExit; Close]
      (launch (Options (IgnoreFlag false)
                 ["--user-data-dir=/home/me/profile"%string]
                 None false true true true)
         "Xa3b9Q" (Some 4242)
         (Os {[ "/home/me/profile"%string ]} ∅ [] [] false))
    = Normal (c', w') ∧
    temporaryUserDataDir c' = None ∧
    dirs w' = {[ "/home/me/profile"%string ]}.
Proof.
  destruct (caller_profile_is_never_removed
              (Options (IgnoreFlag false)
                 ["--user-data-dir=/home/me/profile"%string]
                 None false true true true)
              "Xa3b9Q" (Some 4242)
              (Os {[ "/home/me/profile"%string ]} ∅ [] [] false)
              [Close; ChromeExit; Close])
    as (_ & _ & _ & c' & w' & Hrun & Hnone & Hdirs).
  - vm_compute. reflexivity.
  - exists c', w'. split; [exact Hrun|]. split; [exact Hnone|exact Hdirs].
Defined.

End LauncherFacts.

(** * Further properties of the code *)

(** ** The prober returns a nearest available revision *)

Section Nearest_facts.
Context (available : Z → bool).

Lemma probe_loop_nearest fuel min max rev : ∀ down up h v,
  min ≤ down → down ≤ rev → rev ≤ up → up ≤ max →
  (∀ q, down ≤ q ≤ up → available q = false) →
  level min max rev down up →
  (probe_loop available fuel min max down up h).1 = Val (Some v) →
  ∀ q, inside min max q → available q = true →
    Z.abs (v - rev) ≤ Z.abs (q - rev) ∧
    (Z.abs (v - rev) = Z.abs (q - rev) → v ≤ q).
Proof.
  induction fuel as [|fuel IH]; intros down up h v Hd Hdr Hru Hu Hnone Hlevel.
  { discriminate. }
  simpl. rewrite (bool_decide_true (min ≤ down)) by done. simpl.
  unfold probe, bind, canDownload, emit, ret.
  destruct (decide (down > min)) as [Gd|Gd];
    [rewrite (bool_decide_true _ Gd)|rewrite (bool_decide_false _ Gd)];
  (destruct (decide (up < max)) as [Gu|Gu];
    [rewrite (bool_decide_true _ Gu)|rewrite (bool_decide_false _ Gu)]);
  simpl.
  - destruct (available (down - 1)) eqn:Ad;
      [|destruct (available (up + 1)) eqn:Au].
    + intros [= <-] q [Hq1 Hq2] Hq.
      assert (¬ (down ≤ q ≤ up)) by (intros Hin; by rewrite (Hnone q Hin) in Hq).
      unfold level in Hlevel. lia.
    + intros [= <-] q [Hq1 Hq2] Hq.
      assert (¬ (down ≤ q ≤ up)) by (intros Hin; by rewrite (Hnone q Hin) in Hq).
      assert (q ≠ down - 1) by congruence.
      unfold level in Hlevel. lia.
    + apply IH; [lia..| |unfold level in *; lia].
      intros q Hq. destruct (decide (q = down - 1)) as [->|]; [done|].
      destruct (decide (q = up + 1)) as [->|]; [done|].
      apply Hnone. lia.
  - destruct (available (down - 1)) eqn:Ad.
    + intros [= <-] q [Hq1 Hq2] Hq.
      assert (¬ (down ≤ q ≤ up)) by (intros Hin; by rewrite (Hnone q Hin) in Hq).
      lia.
    + apply IH; [lia..| |unfold level in *; lia].
      intros q Hq. destruct (decide (q = down - 1)) as [->|]; [done|].
      apply Hnone. lia.
  - destruct (available (up + 1)) eqn:Au.
    + intros [= <-] q [Hq1 Hq2] Hq.
      assert (¬ (down ≤ q ≤ up)) by (intros Hin; by rewrite (Hnone q Hin) in Hq).
      lia.
    + apply IH; [lia..| |unfold level in *; lia].
      intros q Hq. destruct (decide (q = up + 1)) as [->|]; [done|].
      apply Hnone. lia.
  - by apply IH.
Qed.

Lemma findDownloadableRevision_nearest fuel rev from to h v :
  inside (Z.min from to) (Z.max from to) rev →
  (findDownloadableRevision available fuel rev from to h).1 = Val (Some v) →
  ∀ q, inside (Z.min from to) (Z.max from to) q → available q = true →
    Z.abs (v - rev) ≤ Z.abs (q - rev) ∧
    (Z.abs (v - rev) = Z.abs (q - rev) → v ≤ q).
Proof.
  intros [Hr1 Hr2].
  unfold findDownloadableRevision, bind, canDownload, emit, ret. simpl.
  destruct (available rev) eqn:Ar.
  - intros [= <-] q _ _. lia.
  - apply probe_loop_nearest; [lia..| |unfold level; lia].
    intros q Hq. by assert (q = rev) as -> by lia.
Qed.

End Nearest_facts.

(** X1.  When [findDownloadableRevision(rev, from, to)], called with [rev]
    in the bracket, returns a revision, no available revision of the
    bracket is nearer to [rev], and among the nearest it is the lowest:
    a tie between the two fronts goes to the downward one. *)
Theorem prober_returns_a_nearest_revision (available : Z → bool)
    (fuel : nat) (rev from to : Z) (h : host) (v q : Z) :
  inside (Z.min from to) (Z.max from to) rev →
  (findDownloadableRevision available fuel rev from to h).1 = Val (Some v) →
  inside (Z.min from to) (Z.max from to) q → available q = true →
  Z.abs (v - rev) ≤ Z.abs (q - rev) ∧
  (Z.abs (v - rev) = Z.abs (q - rev) → v ≤ q).
Proof.
  intros Hin Hret Hq Ha.
  by apply (findDownloadableRevision_nearest available fuel rev from to h v).
Qed.

Lemma prober_prefers_3_to_7_around_5 :
  Z.abs (3 - 5) ≤ Z.abs (7 - 5) ∧ (Z.abs (3 - 5) = Z.abs (7 - 5) → 3 ≤ 7).
Proof.
  apply (prober_returns_a_nearest_revision
           (λ r, bool_decide (r = 3) || bool_decide (r = 7))
           20 5 10 0 (Host ∅ [] []) 3 7).
  - unfold inside. lia.
  - vm_compute. reflexivity.
  - unfold inside. lia.
  - reflexivity.
Defined.

(** X2.  With an available revision in the bracket and fuel for the
    width of the bracket, [findDownloadableRevision] returns, and what it
    returns is an available revision of the bracket. *)
Theorem prober_finds_what_is_there (available : Z → bool)
    (fuel : nat) (rev from to : Z) (h : host) (q : Z) :
  inside (Z.min from to) (Z.max from to) rev →
  inside (Z.min from to) (Z.max from to) q → available q = true →
  (Z.to_nat (Z.max from to - Z.min from to) ≤ fuel)%nat →
  ∃ v,
    (findDownloadableRevision available fuel rev from to h).1 = Val (Some v) ∧
    inside (Z.min from to) (Z.max from to) v ∧ available v = true.
Proof.
  intros Hin Hq Ha Hfuel.
  destruct (findDownloadableRevision_returns available fuel rev from to h Hin
              ltac:(by exists q) Hfuel) as (v & Hret).
  exists v. split; [done|].
  destruct (findDownloadableRevision_run available fuel rev from to Hin)
    as (ps & r & Hrun & _ & Hv & _).
  rewrite Hrun in Hret. simpl in Hret. by apply Hv.
Qed.

Lemma prober_finds_9_from_2_in_0_10 :
  ∃ v, (findDownloadableRevision (λ r, bool_decide (r = 9)) 10 2 0 10
          (Host ∅ [] [])).1 = Val (Some v) ∧
       inside (Z.min 0 10) (Z.max 0 10) v ∧
       bool_decide (v = 9) = true.
Proof.
  apply (prober_finds_what_is_there (λ r, bool_decide (r = 9)) 10 2 0 10
           (Host ∅ [] []) 9).
  - unfold inside. lia.
  - unfold inside. lia.
  - reflexivity.
  - vm_compute. lia.
Defined.

(** ** What a returned bracket means *)

Lemma round_half_spec s : 2 * round_half s - 1 ≤ s ≤ 2 * round_half s.
Proof.
  unfold round_half.
  pose proof (Z.div_mod (s + 1) 2 ltac:(lia)) as Hdm.
  pose proof (Z.mod_pos_bound (s + 1) 2 ltac:(lia)) as Hm.
  lia.
Qed.

Section Bracket_facts.
Context (available : Z → bool) (fetch : Z → option string).
Context (child : Z → child_end).

(** A loop that returns a pair did so from a pass that broke out, and
    anything that holds at the start and that completed passes keep holds
    at the start of that last pass. *)
Lemma bisect_loop_last_pass (I : Z → Z → host → Prop) fuel isManual n :
  (∀ g b hg g' b' hg',
     I g b hg →
     bisect_body available fetch child fuel isManual g b hg
       = (Val (Some (g', b')), hg') →
     I g' b' hg') →
  ∀ good bad h pair h',
    I good bad h →
    bisect_loop available fetch child fuel n isManual good bad h
      = (Val pair, h') →
    ∃ hb,
      I pair.1 pair.2 hb ∧
      bisect_body available fetch child fuel isManual pair.1 pair.2 hb
        = (Val None, h').
Proof.
  intros Hkeep. induction n as [|n IH]; intros good bad h pair h' HI; simpl.
  { discriminate. }
  unfold bind at 1.
  destruct (bisect_body available fetch child fuel isManual good bad h)
    as [[[[g1 b1]|]|x] h1] eqn:Hbody.
  - apply IH. by eapply Hkeep.
  - intros [= <- <-]. by exists h.
  - discriminate.
Qed.

Lemma after_download_continues (isManual : bool) good bad revision wasLocal
    (h : host) :
  (after_download child isManual good bad revision wasLocal h).1 ≠ Val None.
Proof.
  unfold after_download. unfold bind at 1.
  destruct ((if isManual then manual_evaluate else runScript child revision) h)
    as [[c|x] h1]; [|done].
  unfold bind, browserFetcher_remove, emit, ret.
  destruct (negb wasLocal); simpl; by destruct (truthy c).
Qed.

(** A pass breaks out only when the prober's answer is an end of the
    bracket (or 0), and then nothing strictly inside is available. *)
Lemma break_means_nothing_inside fuel isManual good bad h h' :
  0 < Z.min good bad →
  bisect_body available fetch child fuel isManual good bad h
    = (Val None, h') →
  ∀ q, Z.min good bad < q < Z.max good bad → available q = false.
Proof.
  intros Hpos Hbody q Hq.
  pose proof (round_half_inside good bad) as Hmid.
  pose proof (round_half_spec (good + bad)) as Hhalf.
  destruct (findDownloadableRevision_run available fuel
              (round_half (good + bad)) good bad Hmid)
    as (ps & r & Hrun & _ & Hv & Hn & _).
  rewrite (bisect_body_unfold available fetch child fuel isManual good bad h
             _ _ (Hrun h)) in Hbody.
  destruct r as [[v|]|x]; [|done|done].
  destruct (Hv v eq_refl) as [[Hv1 Hv2] Ha].
  destruct (bool_decide (v = 0) || bool_decide (v = good)
            || bool_decide (v = bad)) eqn:Hstop.
  - rewrite !orb_true_iff, !bool_decide_eq_true in Hstop.
    destruct (available q) eqn:Aq; [|done].
    assert (Hret : (findDownloadableRevision available fuel
                      (round_half (good + bad)) good bad h).1
                   = Val (Some v)) by (by rewrite Hrun).
    destruct (findDownloadableRevision_nearest available fuel
                (round_half (good + bad)) good bad h v Hmid Hret q
                ltac:(unfold inside; lia) Aq) as [Hnear Htie].
    unfold inside in Hmid. lia.
  - destruct (fetch v); [|done].
    exfalso. eapply after_download_continues. by rewrite Hbody.
Qed.

Lemma pass_keeps_bracket_positive fuel isManual g b hg g' b' hg' :
  0 < Z.min g b →
  bisect_body available fetch child fuel isManual g b hg
    = (Val (Some (g', b')), hg') →
  0 < Z.min g' b'.
Proof.
  intros Hpos Hbody.
  apply bisect_body_run, body_run_narrows in Hbody
    as (v & Hv & [[= -> ->]|[= -> ->]]); lia.
Qed.

Lemma returned_bracket_is_minimal fuel isManual good bad h pair h' :
  0 < Z.min good bad →
  bisect available fetch child fuel isManual good bad h = (Val pair, h') →
  ∀ q, Z.min pair.1 pair.2 < q < Z.max pair.1 pair.2 → available q = false.
Proof.
  intros Hpos Hrun.
  destruct (bisect_loop_last_pass (λ g b _, 0 < Z.min g b) fuel isManual fuel
              (pass_keeps_bracket_positive fuel isManual)
              good bad h pair h' Hpos Hrun) as (hb & Hpos' & Hlast).
  by eapply break_means_nothing_inside.
Qed.

Lemma pass_keeps_labels fuel good bad g b hg g' b' hg' :
  labelled available child good bad g b →
  bisect_body available fetch child fuel false g b hg
    = (Val (Some (g', b')), hg') →
  labelled available child good bad g' b'.
Proof.
  intros [Hg Hb] Hbody. apply bisect_body_run in Hbody.
  inversion Hbody as [| | | |ps v c h3 Hps Hi Hvg Hvb Ha He Hnext]; subst.
  clear Hbody. rewrite runScript_run in He.
  assert (truthy c = judged_bad child v) as Hc.
  { unfold judged_bad. destruct (child v); by inversion He. }
  rewrite Hc in Hnext. unfold labelled.
  destruct (judged_bad child v) eqn:Hj; injection Hnext as <- <-; auto.
Qed.

Lemma returned_bracket_is_labelled fuel good bad h pair h' :
  bisect available fetch child fuel false good bad h = (Val pair, h') →
  labelled available child good bad pair.1 pair.2.
Proof.
  intros Hrun.
  destruct (bisect_loop_last_pass (λ g b _, labelled available child good bad g b) fuel false
              fuel (λ g b hg g' b' hg', pass_keeps_labels fuel good bad g b hg g' b' hg')
              good bad h pair h' ltac:(by split; left) Hrun)
    as (hb & Hlab & _).
  done.
Qed.

(** A run that returns leaves the download directory as it found it. *)
Lemma returned_run_restores_local fuel isManual good bad h pair h' :
  bisect available fetch child fuel isManual good bad h = (Val pair, h') →
  local h' = local h.
Proof.
  intros Hrun.
  destruct (bisect_loop_last_pass (λ _ _ hg, local hg = local h) fuel isManual
              fuel) with (good := good) (bad := bad) (h := h) (pair := pair)
              (h' := h') as (hb & HL & Hlast); [|done|done|].
  - intros g b hg g' b' hg' HL Hbody.
    apply bisect_body_run, body_run_tame in Hbody as (_ & _ & _ & _ & Hsame).
    rewrite <- HL. by eapply Hsame.
  - apply bisect_body_run, body_run_tame in Hlast as (_ & _ & _ & _ & Hsame).
    rewrite <- HL. by eapply Hsame.
Qed.

End Bracket_facts.

(** X3.  When a run over a bracket of positive revisions returns a pair,
    no revision strictly between the two ends is downloadable: the
    bracket cannot be narrowed any further. *)
Theorem returned_bracket_has_nothing_inside
    (available : Z → bool) (fetch : Z → option string)
    (child : Z → child_end) (fuel : nat) (isManual : bool)
    (good bad : Z) (h : host) (good' bad' : Z) (h' : host) (q : Z) :
  0 < Z.min good bad →
  bisect available fetch child fuel isManual good bad h
    = (Val (good', bad'), h') →
  Z.min good' bad' < q < Z.max good' bad' →
  available q = false.
Proof.
  intros Hpos Hrun Hq.
  by apply (returned_bracket_is_minimal available fetch child fuel isManual
              good bad h (good', bad') h' Hpos Hrun q).
Qed.

Lemma nothing_between_10_and_20_when_only_tens_exist :
  bool_decide (15 `mod` 10 = 0) = false.
Proof.
  apply (returned_bracket_has_nothing_inside
           (λ r, bool_decide (r `mod` 10 = 0)) (λ _, Some "chrome"%string)
           (λ r, if bool_decide (r < 17) then ChildExit 0 else ChildExit 1)
           100 false 10 40 (Host ∅ [] []) 10 20
           (bisect (λ r, bool_decide (r `mod` 10 = 0))
              (λ _, Some "chrome"%string)
              (λ r, if bool_decide (r < 17) then ChildExit 0 else ChildExit 1)
              100 false 10 40 (Host ∅ [] [])).2 15).
  - lia.
  - vm_compute. reflexivity.
  - lia.
Defined.



(** X5.  Bisection is correct for a regression: when the script judges a
    revision bad exactly from some revision [t] on, and the run starts
    with [0 < good < t <= bad], a pair [(good', bad')] it returns
    satisfies [good' < t <= bad'], and nothing strictly between [good']
    and [bad'] is downloadable: [bad'] is the only place left for the
    first bad build. *)
Theorem regression_is_bracketed
    (available : Z → bool) (fetch : Z → option string)
    (child : Z → child_end) (fuel : nat)
    (good bad t : Z) (h : host) (good' bad' : Z) (h' : host) :
  (∀ r, judged_bad child r = true ↔ t ≤ r) →
  0 < good → good < t → t ≤ bad →
  bisect available fetch child fuel false good bad h
    = (Val (good', bad'), h') →
  good' < t ∧ t ≤ bad' ∧
  ∀ q, good' < q < bad' → available q = false.
Proof.
  intros Hmono Hpos Hgood Hbad Hrun.
  destruct (returned_bracket_is_labelled available fetch child fuel good bad h
              (good', bad') h' Hrun) as [Hg Hb]. simpl in Hg, Hb.
  assert (Hg' : good' < t).
  { destruct Hg as [->|[_ Hj]]; [done|].
    destruct (decide (t ≤ good')) as [Hge|]; [|lia].
    apply Hmono in Hge. congruence. }
  assert (Hb' : t ≤ bad').
  { destruct Hb as [->|[_ Hj]]; [done|]. by apply Hmono. }
  split_and!; [done..|]. intros q Hq.
  apply (returned_bracket_is_minimal available fetch child fuel false
           good bad h (good', bad') h' ltac:(lia) Hrun q). simpl. lia.
Qed.

Lemma regression_at_17_is_bracketed_by_16_and_17 :
  16 < 17 ∧ 17 ≤ 17 ∧ ∀ q, 16 < q < 17 → true = false.
Proof.
  apply (regression_is_bracketed
           (λ _, true) (λ _, Some "chrome"%string)
           (λ r, if bool_decide (r < 17) then ChildExit 0 else ChildExit 1)
           100 10 40 17 (Host ∅ [] [])
           16 17
           (bisect (λ _, true) (λ _, Some "chrome"%string)
              (λ r, if bool_decide (r < 17) then ChildExit 0 else ChildExit 1)
              100 false 10 40 (Host ∅ [] [])).2).
  - intros r. unfold judged_bad. case_bool_decide; simpl; split;
      intros; (lia || done).
  - lia.
  - lia.
  - lia.
  - vm_compute. reflexivity.
Defined.

(** X6.  A run that returns leaves the download directory exactly as it
    found it, in either mode: what it downloaded it removed again, and
    what was there before is still there. *)
Theorem returned_run_restores_download_directory
    (available : Z → bool) (fetch : Z → option string)
    (child : Z → child_end) (fuel : nat) (isManual : bool)
    (good bad : Z) (h : host) (pair : Z * Z) (h' : host) :
  bisect available fetch child fuel isManual good bad h = (Val pair, h') →
  local h' = local h.
Proof.
  intros Hrun.
  by apply (returned_run_restores_local available fetch child fuel isManual
              good bad h pair h').
Qed.

Lemma run_from_10_to_40_restores_directory_with_20 :
  local (bisect (λ _, true) (λ _, Some "chrome"%string)
           (λ r, if bool_decide (r < 17) then ChildExit 0 else ChildExit 1)
           100 false 10 40 (Host {[20]} [] [])).2
  = local (Host {[20]} [] []).
Proof.
  apply (returned_run_restores_download_directory
           (λ _, true) (λ _, Some "chrome"%string)
           (λ r, if bool_decide (r < 17) then ChildExit 0 else ChildExit 1)
           100 false 10 40 (Host {[20]} [] []) (16, 17)
           (bisect (λ _, true) (λ _, Some "chrome"%string)
              (λ r, if bool_decide (r < 17) then ChildExit 0 else ChildExit 1)
              100 false 10 40 (Host {[20]} [] [])).2).
  vm_compute. reflexivity.
Defined.

(** ** What a run touches *)

Section Frame_facts.
Context (available : Z → bool) (fetch : Z → option string).
Context (child : Z → child_end).



(** With nothing downloadable strictly inside the bracket but something
    downloadable in it, the very first pass breaks out. *)
Lemma first_pass_breaks fuel isManual good bad h q :
  inside (Z.min good bad) (Z.max good bad) q → available q = true →
  (∀ p, Z.min good bad < p < Z.max good bad → available p = false) →
  (Z.to_nat (Z.max good bad - Z.min good bad) ≤ fuel)%nat →
  ∃ ps,
    bisect_body available fetch child fuel isManual good bad h
    = (Val None, probed ps h).
Proof.
  intros Hq Ha Hnone Hfuel.
  pose proof (round_half_inside good bad) as Hmid.
  destruct (findDownloadableRevision_run available fuel
              (round_half (good + bad)) good bad Hmid)
    as (ps & r & Hrun & _ & Hv & _).
  destruct (findDownloadableRevision_returns available fuel
              (round_half (good + bad)) good bad h Hmid
              ltac:(by exists q) Hfuel) as (v & Hret).
  rewrite Hrun in Hret. simpl in Hret. subst r.
  destruct (Hv v eq_refl) as [[Hv1 Hv2] Hav].
  exists ps.
  rewrite (bisect_body_unfold available fetch child fuel isManual good bad h
             _ _ (Hrun h)).
  assert (v = good ∨ v = bad) as Hend.
  { destruct (decide (Z.min good bad < v < Z.max good bad)) as [Hin|Hout].
    - rewrite (Hnone v Hin) in Hav. done.
    - lia. }
  destruct Hend as [->| ->].
  - by rewrite (bool_decide_true (good = good)), orb_true_r by done.
  - by rewrite (bool_decide_true (bad = bad)), orb_true_r by done.
Qed.

End Frame_facts.


(** X8.  When something in the bracket is downloadable but nothing
    strictly inside it is (adjacent ends, or [good = bad], for one), a
    run with fuel for the width of the bracket returns the pair it was
    given after probing only: it downloads nothing, evaluates nothing and
    removes nothing. *)
Theorem run_over_an_empty_interior_changes_nothing
    (available : Z → bool) (fetch : Z → option string)
    (child : Z → child_end) (fuel : nat) (isManual : bool)
    (good bad : Z) (h : host) (q : Z) :
  inside (Z.min good bad) (Z.max good bad) q → available q = true →
  (∀ p, Z.min good bad < p < Z.max good bad → available p = false) →
  (Z.to_nat (Z.max good bad - Z.min good bad) < fuel)%nat →
  ∃ ps,
    bisect available fetch child fuel isManual good bad h
    = (Val (good, bad), probed ps h).
Proof.
  intros Hq Ha Hnone Hfuel.
  destruct (first_pass_breaks available fetch child fuel isManual good bad h q
              Hq Ha Hnone ltac:(lia)) as (ps & Hbody).
  exists ps. unfold bisect. destruct fuel as [|n]; [lia|].
  cbn [bisect_loop]. unfold bind. by rewrite Hbody.
Qed.

Lemma adjacent_577361_577362_come_back_unchanged :
  ∃ ps,
    bisect (λ r, bool_decide (r = 577361)) (λ _, Some "chrome"%string)
      (λ _, ChildExit 0) 5 false 577361 577362 (Host ∅ [] [])
    = (Val (577361, 577362), probed ps (Host ∅ [] [])).
Proof.
  apply (run_over_an_empty_interior_changes_nothing
           (λ r, bool_decide (r = 577361)) (λ _, Some "chrome"%string)
           (λ _, ChildExit 0) 5 false 577361 577362 (Host ∅ [] []) 577361).
  - unfold inside. lia.
  - reflexivity.
  - intros p Hp. lia.
  - vm_compute. lia.
Defined.

(** ** What a run downloads *)

Lemma downloads_app evs1 evs2 :
  downloads (evs1 ++ evs2) = downloads evs1 ++ downloads evs2.
Proof. apply omap_app. Qed.

Lemma downloads_probes ps : downloads (ECanDownload <$> ps) = [].
Proof. induction ps as [|p ps IH]; [done|]. by simpl. Qed.

Lemma downloads_evaluation evs :
  Forall is_evaluation evs → downloads evs = [].
Proof.
  induction 1 as [|e evs He _ IH]; [done|].
  destruct e; try done; simpl in *; by rewrite ?IH.
Qed.

Section Download_facts.
Context (available : Z → bool) (fetch : Z → option string).
Context (child : Z → child_end).

(** A pass downloads at most one revision, one the prober returned from
    strictly inside the bracket, and a pass that completes downloaded the
    revision it moves an end to. *)
Lemma pass_downloads fuel (isManual : bool) good bad h r h' :
  bisect_body available fetch child fuel isManual good bad h = (r, h') →
  ∃ evs,
    journal h' = journal h ++ evs ∧
    ((downloads evs = [] ∧ ∀ next, r ≠ Val (Some next)) ∨
     ∃ v,
       downloads evs = [v] ∧
       Z.min good bad < v < Z.max good bad ∧ available v = true ∧
       ∀ next, r = Val (Some next) → next = (good, v) ∨ next = (v, bad)).
Proof.
  pose proof (round_half_inside good bad) as Hmid.
  destruct (findDownloadableRevision_run available fuel
              (round_half (good + bad)) good bad Hmid)
    as (ps & r0 & Hrun & _ & Hv & _).
  rewrite (bisect_body_unfold available fetch child fuel isManual good bad h
             _ _ (Hrun h)).
  destruct r0 as [[v|]|x].
  2:{ intros [= <- <-]. exists (ECanDownload <$> ps).
      split; [done|]. left. split; [apply downloads_probes|done]. }
  2:{ intros [= <- <-]. exists (ECanDownload <$> ps).
      split; [done|]. left. split; [apply downloads_probes|done]. }
  destruct (Hv v eq_refl) as [[Hv1 Hv2] Hav].
  destruct (bool_decide (v = 0) || bool_decide (v = good)
            || bool_decide (v = bad)) eqn:Hstop.
  { intros [= <- <-]. exists (ECanDownload <$> ps).
    split; [done|]. left. split; [apply downloads_probes|done]. }
  apply orb_false_elim in Hstop as [Hstop Hb].
  apply orb_false_elim in Hstop as [_ Hg].
  apply bool_decide_eq_false in Hg, Hb.
  assert (Hin : Z.min good bad < v < Z.max good bad) by lia.
  destruct (fetch v) as [path|].
  2:{ intros [= <- <-]. exists ((ECanDownload <$> ps) ++ [EDownload v]).
      simpl. split; [by rewrite app_assoc|]. right. exists v.
      rewrite downloads_app, downloads_probes. split_and!; (done || lia). }
  unfold after_download. unfold bind at 1.
  destruct ((if isManual then manual_evaluate else runScript child v)
              (downloaded v (probed ps h))) as [[c|x] h3] eqn:He;
    apply evaluator_quiet in He as (_ & evs & HJ & Hevs); simpl in HJ.
  - unfold bind, browserFetcher_remove, emit, ret.
    destruct (negb (bool_decide (v ∈ local (probed ps h)))); simpl.
    + intros Hr.
      exists ((ECanDownload <$> ps) ++ [EDownload v] ++ evs ++ [ERemove v]).
      assert (h' = Host (local h3 ∖ {[v]}) (stdin h3)
                        (journal h3 ++ [ERemove v]) ∧
              r = Val (Some (if truthy c then (good, v) else (v, bad))))
        as [-> ->] by (destruct (truthy c); by inversion Hr).
      simpl. split; [by rewrite HJ, <- !app_assoc|]. right. exists v.
      rewrite !downloads_app, downloads_probes. simpl.
      rewrite downloads_app, (downloads_evaluation evs Hevs). simpl.
      split_and!; [(done || lia)..|].
      intros next [= <-]. destruct (truthy c); auto.
    + intros Hr.
      exists ((ECanDownload <$> ps) ++ [EDownload v] ++ evs).
      assert (h' = h3 ∧
              r = Val (Some (if truthy c then (good, v) else (v, bad))))
        as [-> ->] by (destruct (truthy c); by inversion Hr).
      split; [by rewrite HJ, <- !app_assoc|]. right. exists v.
      rewrite !downloads_app, downloads_probes. simpl.
      rewrite (downloads_evaluation evs Hevs).
      split_and!; [(done || lia)..|].
      intros next [= <-]. destruct (truthy c); auto.
  - intros [= <- <-].
    exists ((ECanDownload <$> ps) ++ [EDownload v] ++ evs).
    split; [by rewrite HJ, <- !app_assoc|]. right. exists v.
    rewrite !downloads_app, downloads_probes. simpl.
    rewrite (downloads_evaluation evs Hevs). split_and!; (done || lia).
Qed.

Lemma bisect_loop_downloads fuel isManual n : ∀ good bad h r h',
  bisect_loop available fetch child fuel n isManual good bad h = (r, h') →
  ∃ evs,
    journal h' = journal h ++ evs ∧
    NoDup (downloads evs) ∧
    Forall (λ v, Z.min good bad < v < Z.max good bad ∧ available v = true)
           (downloads evs).
Proof.
  induction n as [|n IH]; intros good bad h r h'; simpl.
  { intros [= <- <-]. exists []. rewrite app_nil_r.
    split_and!; [done|constructor|constructor]. }
  unfold bind at 1.
  destruct (bisect_body available fetch child fuel isManual good bad h)
    as [r1 h1] eqn:Hbody.
  apply pass_downloads in Hbody as (evs & HJ & Hd).
  destruct r1 as [[[g1 b1]|]|x].
  - destruct Hd as [[_ Hno]|(v & Hdv & Hin & Hav & Hnext)];
      [by destruct (Hno (g1, b1))|].
    intros Hloop. apply IH in Hloop as (evs' & HJ' & Hnd & Hall).
    exists (evs ++ evs'). split; [by rewrite HJ', HJ, app_assoc|].
    rewrite downloads_app, Hdv. simpl.
    assert (Hall' : Forall (λ w, Z.min good bad < w < Z.max good bad ∧
                                 available w = true ∧ w ≠ v)
                           (downloads evs')).
    { eapply Forall_impl; [exact Hall|]. simpl. intros w [Hw Haw].
      destruct (Hnext (g1, b1) eq_refl) as [[= -> ->]|[= -> ->]];
        split_and!; (lia || done). }
    split.
    + constructor; [|done]. intros Hv.
      rewrite Forall_forall in Hall'. by destruct (Hall' _ Hv) as (_ & _ & ?).
    + constructor; [done|]. eapply Forall_impl; [exact Hall'|].
      simpl. tauto.
  - intros [= <- <-]. exists evs. split; [done|].
    destruct Hd as [[-> _]|(v & -> & Hin & Hav & _)].
    + split; constructor.
    + split; [apply NoDup_singleton|]. rewrite Forall_singleton. by split.
  - intros [= <- <-]. exists evs. split; [done|].
    destruct Hd as [[-> _]|(v & -> & Hin & Hav & _)].
    + split; constructor.
    + split; [apply NoDup_singleton|]. rewrite Forall_singleton. by split.
Qed.

End Download_facts.

(** X9.  However a run ends, the revisions it downloaded are all
    downloadable revisions strictly inside the bracket it was given, and
    no revision is downloaded twice. *)
Theorem run_downloads_each_revision_once
    (available : Z → bool) (fetch : Z → option string)
    (child : Z → child_end) (fuel : nat) (isManual : bool)
    (good bad : Z) (h : host) :
  ∃ evs,
    journal (bisect available fetch child fuel isManual good bad h).2
      = journal h ++ evs ∧
    NoDup (downloads evs) ∧
    ∀ v, v ∈ downloads evs →
      Z.min good bad < v < Z.max good bad ∧ available v = true.
Proof.
  destruct (bisect available fetch child fuel isManual good bad h)
    as [r h'] eqn:Hrun.
  apply bisect_loop_downloads in Hrun as (evs & HJ & Hnd & Hall).
  exists evs. simpl. split_and!; [done..|].
  intros v Hv. rewrite Forall_forall in Hall. by apply Hall.
Qed.

(** A loop that returns within [n] passes returns the same with more. *)
Lemma bisect_loop_more_passes
    (available : Z → bool) (fetch : Z → option string)
    (child : Z → child_end) fuel isManual n : ∀ m good bad h pair h',
  (n ≤ m)%nat →
  bisect_loop available fetch child fuel n isManual good bad h
    = (Val pair, h') →
  bisect_loop available fetch child fuel m isManual good bad h
    = (Val pair, h').
Proof.
  induction n as [|n IH]; intros m good bad h pair h' Hnm; simpl.
  { discriminate. }
  destruct m as [|m]; [lia|]. simpl. unfold bind.
  destruct (bisect_body available fetch child fuel isManual good bad h)
    as [[[[g1 b1]|]|x] h1]; [|done..].
  apply IH. lia.
Qed.

(** X10.  A scripted run terminates whenever its bracket holds a
    downloadable revision, downloads succeed and the script can be
    spawned: with more fuel than [|good - bad|] it returns a pair, after
    at most [|good - bad| + 1] passes. *)
Theorem scripted_run_terminates
    (available : Z → bool) (fetch : Z → option string)
    (child : Z → child_end) (fuel : nat) (good bad : Z) (h : host) (q : Z) :
  (∀ r, is_Some (fetch r)) →
  (∀ r, child r ≠ ChildError) →
  inside (Z.min good bad) (Z.max good bad) q → available q = true →
  (Z.to_nat (Z.abs (good - bad)) < fuel)%nat →
  ∃ pair h',
    bisect_loop available fetch child fuel
      (S (Z.to_nat (Z.abs (good - bad)))) false good bad h = (Val pair, h') ∧
    (bisect available fetch child fuel false good bad h).1 = Val pair.
Proof.
  intros Hfetch Hchild Hq Ha Hfuel.
  destruct (bisect_loop_returns available fetch child fuel
              (S (Z.to_nat (Z.abs (good - bad)))) good bad h Hfetch Hchild
              ltac:(by exists q) ltac:(lia) ltac:(lia)) as (pair & Hpair).
  destruct (bisect_loop available fetch child fuel
              (S (Z.to_nat (Z.abs (good - bad)))) false good bad h)
    as [r h'] eqn:Hloop.
  simpl in Hpair. subst r. exists pair, h'. split; [done|].
  destruct (bisect_loop_returns available fetch child fuel fuel good bad h
              Hfetch Hchild ltac:(by exists q) ltac:(lia) Hfuel)
    as (pair' & Hpair').
  unfold bisect. rewrite Hpair'. f_equal.
  (* the pair does not depend on how many passes are allowed beyond what
     the run needs *)
  destruct (bisect_loop available fetch child fuel fuel false good bad h)
    as [r2 h2] eqn:Hloop2. simpl in Hpair'. subst r2.
  eapply bisect_loop_more_passes in Hloop; [|apply Hfuel].
  rewrite Hloop in Hloop2. by injection Hloop2 as ->.
Qed.

Lemma scripted_run_from_10_to_40_terminates :
  ∃ pair h',
    bisect_loop (λ r, bool_decide (r `mod` 10 = 0))
      (λ _, Some "chrome"%string)
      (λ r, if bool_decide (r < 17) then ChildExit 0 else ChildExit 1)
      31 (S (Z.to_nat (Z.abs (10 - 40)))) false 10 40 (Host ∅ [] [])
    = (Val pair, h') ∧
    (bisect (λ r, bool_decide (r `mod` 10 = 0)) (λ _, Some "chrome"%string)
       (λ r, if bool_decide (r < 17) then ChildExit 0 else ChildExit 1)
       31 false 10 40 (Host ∅ [] [])).1 = Val pair.
Proof.
  apply (scripted_run_terminates (λ r, bool_decide (r `mod` 10 = 0))
           (λ _, Some "chrome"%string)
           (λ r, if bool_decide (r < 17) then ChildExit 0 else ChildExit 1)
           31 10 40 (Host ∅ [] []) 10).
  - intros r. by eexists.
  - intros r. by case_bool_decide.
  - unfold inside. lia.
  - reflexivity.
  - vm_compute. lia.
Defined.

(** ** More about the launcher *)

Module LauncherMore.
Import Launcher.


(** X11.  Every launch hands Chrome a profile: the arguments of the
    launched process always hold one that starts with [--user-data-dir].
    When none was given, it is the last argument and names the
    temporary directory [mkdtemp] made, which then exists. *)
Theorem launch_always_passes_a_profile (o : options) (suffix : string)
    (spawned : option Z) (w : os) :
  existsb (λ arg, startsWith arg "--user-data-dir")
    (chromeArguments (launch o suffix spawned w).1) = true ∧
  (existsb (λ arg, startsWith arg "--user-data-dir") (initialArguments o)
     = false →
   temporaryUserDataDir (launch o suffix spawned w).1
     = Some (CHROME_PROFILE_PATH +:+ suffix) ∧
   chromeArguments (launch o suffix spawned w).1
     = initialArguments o
       ++ ["--user-data-dir=" +:+ (CHROME_PROFILE_PATH +:+ suffix)] ∧
   CHROME_PROFILE_PATH +:+ suffix ∈ dirs (launch o suffix spawned w).2).
Proof.
  unfold launch. simpl.
  destruct (existsb (λ arg, startsWith arg "--user-data-dir")
              (initialArguments o)) eqn:Hgiven; simpl.
  - done.
  - split.
    + rewrite existsb_app. simpl. apply orb_true_r.
    + intros _. split_and!; [done..|]. set_solver.
Qed.





(** *** The hooks on [process] *)

Lemma removeListener_perm l hs :
  l ∈ hs → l :: removeListener l hs ≡ₚ hs.
Proof.
  induction hs as [|x hs IH]; intros Hin; [by apply elem_of_nil in Hin|].
  simpl. case_bool_decide as Hx.
  - by rewrite Hx.
  - apply elem_of_cons in Hin as [->|Hin]; [done|].
    rewrite Permutation_swap. by rewrite IH.
Qed.

Lemma removeEventListeners_perm ls : ∀ hs hs',
  hs' ≡ₚ ls ++ hs → removeEventListeners ls hs' ≡ₚ hs.
Proof.
  induction ls as [|l ls IH]; intros hs hs' Hp; simpl; [done|].
  apply IH. simpl in Hp.
  assert (Hin : l ∈ hs') by (rewrite Hp; apply elem_of_cons; auto).
  apply (Permutation_cons_inv (a := l)).
  by rewrite removeListener_perm.
Qed.

(** Whether the closure has deregistered its listeners by now. *)
Lemma launch_hooks o suffix spawned w :
  hooks (launch o suffix spawned w).2
  = hooks w ++ listeners (launch o suffix spawned w).1.
Proof. reflexivity. Qed.

Lemma killChrome_hooks c w c' w' :
  killChrome c w = Normal (c', w') →
  listeners c' = [] ∧
  hooks w' = removeEventListeners (listeners c) (hooks w).
Proof.
  unfold killChrome, and_then, try_catch, skip.
  destruct (pid_truthy (pid c)) as [p|]; simpl.
  - destruct (negb (killed c) && negb (chromeClosed c)); simpl;
      destruct (temporaryUserDataDir c); simpl; by intros [= <- <-].
  - destruct (temporaryUserDataDir c); simpl; by intros [= <- <-].
Qed.

Lemma step_hooks a c w c' w' :
  step a (c, w) = Normal (c', w') →
  match a with
  | ChromeExit => listeners c' = listeners c ∧ hooks w' = hooks w
  | Close | Kill =>
      listeners c' = [] ∧
      hooks w' = removeEventListeners (listeners c) (hooks w)
  end.
Proof.
  destruct a; simpl.
  - unfold gracefullyCloseChrome.
    destruct (killChrome c w) as [[c1 w1]|e] eqn:Hk; [|done].
    intros [= <- <-]. by apply killChrome_hooks.
  - apply killChrome_hooks.
  - unfold chrome_exited. intros [= <- <-]. simpl.
    by destruct (temporaryUserDataDir c).
Qed.

Lemma steps_app l1 l2 cw :
  steps (l1 ++ l2) cw =
  match steps l1 cw with
  | Normal cw' => steps l2 cw'
  | Throw e => Throw e
  end.
Proof.
  revert cw. induction l1 as [|a l1 IH]; intros cw; simpl; [done|].
  by destruct (step a cw).
Qed.

(** Once the closure has no listeners left, nothing changes the hooks. *)
Lemma steps_hooks_after acts : ∀ c w c' w',
  listeners c = [] →
  steps acts (c, w) = Normal (c', w') →
  listeners c' = [] ∧ hooks w' = hooks w.
Proof.
  induction acts as [|a acts IH]; intros c w c' w' Hl; simpl.
  - by intros [= <- <-].
  - destruct (step a (c, w)) as [[c1 w1]|e] eqn:Hstep; [|done].
    apply step_hooks in Hstep. intros Hrest.
    assert (listeners c1 = [] ∧ hooks w1 = hooks w) as [Hl1 Hh1].
    { destruct a; destruct Hstep as [Hl1 Hh1]; rewrite ?Hl in *;
        by split. }
    destruct (IH c1 w1 c' w' Hl1 Hrest) as [Hl' Hh']. split; congruence.
Qed.

(** X13.  The hooks [launch] registers on [process] do not leak: once the
    capability or [killChrome] has been called, whatever else happened
    before or after, the closure holds no listener and the listeners on
    [process] are those from before the launch (up to order). *)
Theorem close_deregisters_the_hooks (o : options) (suffix : string)
    (spawned : option Z) (w : os) (acts : list action) :
  Close ∈ acts ∨ Kill ∈ acts →
  ∃ c' w',
    steps acts (launch o suffix spawned w) = Normal (c', w') ∧
    listeners c' = [] ∧
    hooks w' ≡ₚ hooks w.
Proof.
  intros Hin.
  assert (∃ pre a post, acts = pre ++ a :: post ∧ (a = Close ∨ a = Kill))
    as (pre & a & post & -> & Ha).
  { destruct Hin as [Hin|Hin]; apply list_elem_of_split in Hin
      as (pre & post & ->); eauto 6. }
  pose proof (launch_hooks o suffix spawned w) as Hl.
  destruct (launch o suffix spawned w) as [c0 w0]. simpl in Hl.
  destruct (LauncherFacts.steps_run (pre ++ a :: post) c0 w0)
    as (c' & w' & Hrun & _).
  exists c', w'. split; [done|]. rewrite steps_app in Hrun.
  destruct (steps pre (c0, w0)) as [[c1 w1]|e] eqn:Hpre; [|done].
  simpl in Hrun.
  destruct (step a (c1, w1)) as [[c2 w2]|e] eqn:Hstep; [|done].
  apply step_hooks in Hstep.
  assert (listeners c2 = [] ∧
          hooks w2 = removeEventListeners (listeners c1) (hooks w1))
    as [Hl2 Hh2] by (by destruct Ha as [-> | ->]).
  destruct (steps_hooks_after post c2 w2 c' w' Hl2 Hrun) as [Hl' Hh'].
  split; [done|]. rewrite Hh', Hh2.
  (* the hooks before [a]: either nothing was deregistered yet, or the
     closure was already empty *)
  clear Hin Hrun Hl' Hh' Hh2 Hl2 Hstep.
  revert c0 w0 c1 w1 Hl Hpre.
  induction pre as [|b pre IH]; intros c0 w0 c1 w1 Hl; simpl.
  - intros [= <- <-]. apply removeEventListeners_perm.
    rewrite Hl. apply Permutation_app_comm.
  - destruct (step b (c0, w0)) as [[cb wb]|e] eqn:Hb; [|done].
    apply step_hooks in Hb. intros Hpre.
    destruct b.
    + destruct Hb as [Hlb Hhb].
      destruct (steps_hooks_after pre cb wb c1 w1 Hlb Hpre) as [Hl1 Hh1].
      rewrite Hl1, Hh1, Hhb. simpl.
      apply removeEventListeners_perm. rewrite Hl.
      apply Permutation_app_comm.
    + destruct Hb as [Hlb Hhb].
      destruct (steps_hooks_after pre cb wb c1 w1 Hlb Hpre) as [Hl1 Hh1].
      rewrite Hl1, Hh1, Hhb. simpl.
      apply removeEventListeners_perm. rewrite Hl.
      apply Permutation_app_comm.
    + destruct Hb as [Hlb Hhb]. apply (IH cb wb c1 w1); [|done].
      by rewrite Hhb, Hlb.
Qed.

Lemma close_after_launch_deregisters_the_hooks :
  ∃ c' w',
    steps [ChromeExit; Close]
      (launch (Options (IgnoreFlag false) [] None false true true true)
         "Xa3b9Q" (Some 4242) (Os ∅ ∅ [] ["exit"; "SIGINT"]%string false))
    = Normal (c', w') ∧
    listeners c' = [] ∧
    hooks w' ≡ₚ hooks (Os ∅ ∅ [] ["exit"; "SIGINT"]%string false).
Proof.
  apply (close_deregisters_the_hooks
           (Options (IgnoreFlag false) [] None false true true true)
           "Xa3b9Q" (Some 4242) (Os ∅ ∅ [] ["exit"; "SIGINT"]%string false)
           [ChromeExit; Close]).
  left. apply elem_of_cons. right. apply elem_of_cons. left. reflexivity.
Defined.

(** *** The kill and the promise *)







(** X16.  When [ignoreDefaultArgs] is an array, none of the arguments it
    lists reaches Chrome; the one exception is the profile argument the
    launcher appends itself, which is added after the filter. *)
Theorem ignored_arguments_are_not_passed (o : options) (suffix : string)
    (spawned : option Z) (w : os) (ignored : list string) (arg : string) :
  ignoreDefaultArgs o = IgnoreThese ignored →
  arg ∈ ignored →
  arg ≠ "--user-data-dir=" +:+ (CHROME_PROFILE_PATH +:+ suffix) →
  arg ∉ chromeArguments (launch o suffix spawned w).1.
Proof.
  intros Hi Harg Hne. unfold launch. simpl.
  assert (Hnot : arg ∉ initialArguments o).
  { unfold initialArguments. rewrite Hi. rewrite list_elem_of_filter.
    by intros [? _]. }
  destruct (negb _); simpl; [|done].
  rewrite elem_of_app, list_elem_of_singleton. by intros [?|?].
Qed.

Lemma ignored_about_blank_is_not_passed :
  "about:blank"%string
  ∉ chromeArguments
      (launch (Options (IgnoreThese ["about:blank"%string])
                 ["--headless"%string] None false true true true)
         "Xa3b9Q" (Some 4242) (Os ∅ ∅ [] [] false)).1.
Proof.
  apply (ignored_arguments_are_not_passed
           (Options (IgnoreThese ["about:blank"%string])
              ["--headless"%string] None false true true true)
           "Xa3b9Q" (Some 4242) (Os ∅ ∅ [] [] false)
           ["about:blank"%string] "about:blank").
  - reflexivity.
  - apply list_elem_of_singleton. reflexivity.
  - intros H. discriminate H.
Defined.

End LauncherMore.

(** ** The command line *)

Lemma getRevisionArgument_run maxRevision a defaultValue h :
  getRevisionArgument maxRevision a defaultValue h =
  (if bool_decide (valid_argument maxRevision a)
   then Val (resolve a defaultValue) else Halt (ProcessExit 1), h).
Proof.
  destruct a as [| |n]; simpl; try done.
  unfold valid_argument.
  repeat case_bool_decide; try done; lia.
Qed.

(** The top-level function, spelled out. *)
Lemma main_run (available : Z → bool) (fetch : Z → option string)
    (child : Z → child_end) (maxRevision : Z) (fuel : nat) (a : argv)
    (h : host) :
  main available fetch child maxRevision fuel a h =
  if help a then (Halt (ProcessExit 0), h)
  else if bool_decide (valid_argument maxRevision (arg_good a) ∧
                       valid_argument maxRevision (arg_bad a) ∧
                       (manual a = true ∨ scriptExists a = true))
  then bisect available fetch child fuel (manual a)
         (resolve (arg_good a) defaultMinimumRevision)
         (resolve (arg_bad a) maxRevision) h
  else (Halt (ProcessExit 1), h).
Proof.
  unfold main. destruct (help a); [done|].
  unfold bind. rewrite !getRevisionArgument_run.
  destruct (bool_decide (valid_argument maxRevision (arg_good a))) eqn:Hg.
  2:{ rewrite bool_decide_false; [done|].
      apply bool_decide_eq_false in Hg. tauto. }
  destruct (bool_decide (valid_argument maxRevision (arg_bad a))) eqn:Hb.
  2:{ rewrite bool_decide_false; [done|].
      apply bool_decide_eq_false in Hb. tauto. }
  apply bool_decide_eq_true in Hg, Hb.
  destruct (manual a), (scriptExists a); simpl.
  - rewrite bool_decide_true; [done|auto].
  - rewrite bool_decide_true; [done|auto].
  - rewrite bool_decide_true; [done|auto].
  - rewrite bool_decide_false; [done|]. intros (_ & _ & [?|?]); done.
Qed.

(** X17.  The top-level function validates before it does anything: with
    [--help] it exits 0; otherwise, with a revision argument that is no
    number or not strictly between 305043 and the last revision, or in
    scripted mode with no script file, it exits 1; in each case without
    a single probe or download.  Only with valid arguments does it run
    [bisect], 305043 and the last revision standing in for an absent
    [--good] and [--bad]. *)
Theorem main_validates_before_it_runs
    (available : Z → bool) (fetch : Z → option string)
    (child : Z → child_end) (maxRevision : Z) (fuel : nat) (a : argv)
    (h : host) :
  (help a = true →
   main available fetch child maxRevision fuel a h
   = (Halt (ProcessExit 0), h)) ∧
  (help a = false →
   ¬ valid_argument maxRevision (arg_good a) ∨
   ¬ valid_argument maxRevision (arg_bad a) ∨
   (manual a = false ∧ scriptExists a = false) →
   main available fetch child maxRevision fuel a h
   = (Halt (ProcessExit 1), h)) ∧
  (help a = false →
   valid_argument maxRevision (arg_good a) →
   valid_argument maxRevision (arg_bad a) →
   manual a = true ∨ scriptExists a = true →
   main available fetch child maxRevision fuel a h
   = bisect available fetch child fuel (manual a)
       (resolve (arg_good a) defaultMinimumRevision)
       (resolve (arg_bad a) maxRevision) h).
Proof.
  rewrite main_run. split_and!.
  - by intros ->.
  - intros -> Hbad. rewrite bool_decide_false; [done|].
    intros (Hg & Hb & Hs).
    destruct Hbad as [?|[?|[Hm He]]]; [done|done|].
    rewrite Hm, He in Hs. by destruct Hs.
  - intros -> Hg Hb Hs. by rewrite bool_decide_true.
Qed.




(** ** The progress bar *)

Lemma report_snoc calls d t :
  report (calls ++ [(d, t)]) = onProgress (report calls) d t.
Proof. unfold report. by rewrite foldl_app. Qed.

(** X19.  After any number of progress reports, at least one, the bar has
    the total the first report announced and has been ticked, in all,
    exactly the byte count of the latest report, which is also what
    [lastDownloadedBytes] holds: the deltas telescope. *)
Theorem progress_ticks_add_up_to_the_latest_report
    (first : Z * Z) (calls : list (Z * Z)) :
  report (first :: calls) =
  Progress (Some (Bar first.2 (List.last calls first).1))
           (List.last calls first).1.
Proof.
  induction calls as [|[d t] calls IH] using rev_ind.
  - destruct first as [d t]. unfold report, onProgress, tick. simpl.
    do 2 f_equal. f_equal. lia.
  - rewrite app_comm_cons, report_snoc, IH, last_last.
    unfold onProgress, tick. simpl. do 2 f_equal. f_equal. lia.
Qed.

(** ** More about the prompts *)

(** X20.  [isGood] of default.js decides on the first line it recognises
    and on nothing else: the lines before it were all unrecognised, the
    verdict is good exactly when that line (lower-cased) is one of the
    good answers, and the lines after it are left unread.  When no line
    is recognised it consumes them all without a verdict. *)
Theorem isGood_decides_on_the_first_recognised_line (lines : list string) :
  match DefaultScript.isGood lines with
  | (Some good, rest) =>
      ∃ skipped line,
        lines = skipped ++ line :: rest ∧
        Forall unrecognised skipped ∧
        ¬ unrecognised line ∧
        (good = true ↔ toLowerCase line ∈ DefaultScript.goodAnswers)
  | (None, rest) => rest = [] ∧ Forall unrecognised lines
  end.
Proof.
  induction lines as [|line lines IH]; simpl; [by split|].
  unfold DefaultScript.ask.
  case_bool_decide as Hg; [|case_bool_decide as Hb].
  - exists [], line. split_and!; [done|constructor| |done].
    unfold unrecognised. set_solver.
  - exists [], line. split_and!; [done|constructor| |done].
    unfold unrecognised. set_solver.
  - assert (Hun : unrecognised line) by (unfold unrecognised; set_solver).
    destruct (DefaultScript.isGood lines) as [[good|] rest].
    + destruct IH as (skipped & l & -> & Hs & Hl & Hiff).
      exists (line :: skipped), l. split_and!; [done|by constructor|done..].
    + destruct IH as [-> Hall]. split; [done|by constructor].
Qed.

(** X21.  The manual prompt of [bisect] takes lines off standard input up
    to and including the first it recognises, skipping those it does not,
    and touches nothing else; the exit code it produces is 0 or 1, never
    [null] or another number.  With no recognised line left on standard
    input it waits for ever, having consumed it all. *)
Theorem manual_prompt_reads_up_to_the_first_answer (h : host) :
  ∃ asked,
    stdin h = asked ++ stdin (manual_evaluate h).2 ∧
    local (manual_evaluate h).2 = local h ∧
    journal (manual_evaluate h).2 = journal h ++ (EQuestion <$> asked) ∧
    match (manual_evaluate h).1 with
    | Val exitCode =>
        (exitCode = Code 0 ∨ exitCode = Code 1) ∧
        ∃ skipped line,
          asked = skipped ++ [line] ∧
          Forall (λ l, manual_answer l = Undefined) skipped ∧
          manual_answer line = exitCode
    | Halt x =>
        x = AwaitingInput ∧ stdin (manual_evaluate h).2 = [] ∧
        Forall (λ l, manual_answer l = Undefined) asked
    end.
Proof.
  destruct (manual_evaluate h) as [r h'] eqn:He. unfold manual_evaluate in He.
  apply manual_loop_run in He as (asked & Hs & -> & Hr); [|done].
  exists asked. simpl. split_and!; [done..|].
  destruct r as [c|x]; [|done].
  destruct Hr as (Hc & skipped & line & -> & Hsk & Hl).
  split; [|by exists skipped, line].
  rewrite <- Hl in *. unfold manual_answer in *.
  repeat case_bool_decide; simpl in *; auto; done.
Qed.

(** ** When the evaluation cannot be had *)

(** X22.  A script that cannot be spawned is fatal, not a bad verdict:
    the pass rejects without moving either end, and the revision it had
    just downloaded is not removed, so it stays in the download
    directory. *)
Theorem spawn_error_leaves_the_download_behind
    (available : Z → bool) (fetch : Z → option string)
    (child : Z → child_end) (fuel : nat) (good bad : Z)
    (h : host) (revision : Z) (h1 : host) (path : string) :
  findDownloadableRevision available fuel (round_half (good + bad)) good bad h
    = (Val (Some revision), h1) →
  revision ≠ 0 → revision ≠ good → revision ≠ bad →
  fetch revision = Some path →
  child revision = ChildError →
  bisect_body available fetch child fuel false good bad h
  = (Halt Rejected,
     Host ({[revision]} ∪ local h1) (stdin h1)
          (journal h1 ++ [EDownload revision; ERunScript revision])).
Proof.
  intros Hfind H0 Hg Hb Hf Hc.
  rewrite (bisect_body_unfold available fetch child fuel false good bad h
             _ _ Hfind).
  rewrite !bool_decide_false by done. simpl. rewrite Hf.
  unfold after_download. unfold bind at 1. rewrite runScript_run, Hc.
  unfold downloaded. simpl. by rewrite <- app_assoc.
Qed.

Lemma spawn_error_at_8_leaves_8_behind :
  bisect_body (λ _, true) (λ _, Some "chrome"%string) (λ _, ChildError)
    10 false 0 16 (Host ∅ [] [])
  = (Halt Rejected,
     Host ({[8]} ∪ local (Host ∅ [] [ECanDownload 8]))
          (stdin (Host ∅ [] [ECanDownload 8]))
          (journal (Host ∅ [] [ECanDownload 8])
           ++ [EDownload 8; ERunScript 8])).
Proof.
  apply (spawn_error_leaves_the_download_behind
           (λ _, true) (λ _, Some "chrome"%string) (λ _, ChildError)
           10 0 16 (Host ∅ [] []) 8 (Host ∅ [] [ECanDownload 8]) "chrome").
  - vm_compute. reflexivity.
  - lia.
  - lia.
  - lia.
  - reflexivity.
  - reflexivity.
Defined.

(** ** default.js as the script *)

Lemma default_run_status launched lines code :
  (DefaultMain.run launched lines).1 = Some code →
  code = 0 ∧ (∃ cw, launched = Launcher.Normal cw) ∧
    (DefaultScript.isGood lines).1 = Some true
  ∨ code = 1 ∧ ((∃ e, launched = Launcher.Throw e) ∨
                (DefaultScript.isGood lines).1 = Some false).
Proof.
  unfold DefaultMain.run. destruct launched as [cw|e]; simpl.
  - destruct (DefaultScript.isGood lines) as [[[]|] rest]; simpl;
      intros [= <-]; eauto 6.
  - intros [= <-]. eauto.
Qed.

(** X23.  With default.js as the script of a scripted run: when Chrome
    launched and the first recognised answer was a good one, the script
    exits 0 and the pass moves [good] to the candidate; when the answer
    was a bad one, or when Chrome could not be launched at all, it exits
    1 and the pass moves [bad] to the candidate.  A revision whose Chrome
    does not start is thus taken for a bad one. *)
Theorem default_script_verdict_moves_the_bracket
    (available : Z → bool) (fetch : Z → option string)
    (child : Z → child_end) (fuel : nat) (good bad : Z)
    (h : host) (revision : Z) (h1 : host) (path : string)
    (launched : Launcher.completion (Launcher.chrome * Launcher.os))
    (lines : list string) (code : Z) :
  findDownloadableRevision available fuel (round_half (good + bad)) good bad h
    = (Val (Some revision), h1) →
  revision ≠ 0 → revision ≠ good → revision ≠ bad →
  fetch revision = Some path →
  child revision = ChildExit code →
  (DefaultMain.run launched lines).1 = Some code →
  ((∃ cw, launched = Launcher.Normal cw) ∧
   (DefaultScript.isGood lines).1 = Some true ∧
   (bisect_body available fetch child fuel false good bad h).1
     = Val (Some (revision, bad)))
  ∨
  (((∃ e, launched = Launcher.Throw e) ∨
    (DefaultScript.isGood lines).1 = Some false) ∧
   (bisect_body available fetch child fuel false good bad h).1
     = Val (Some (good, revision))).
Proof.
  intros Hfind H0 Hg Hb Hf Hc Hstatus.
  assert (Hbody : ∀ c, c = code →
    (bisect_body available fetch child fuel false good bad h).1
    = Val (Some (if truthy (Code c) then (good, revision)
                 else (revision, bad)))).
  { intros c ->.
    erewrite (bisect_body_completes available fetch child fuel false
                good bad h revision h1 path (Code code)); [done..|].
    by rewrite runScript_run, Hc. }
  apply default_run_status in Hstatus as [(-> & Hl & Hgood)|(-> & Hbad)].
  - left. split_and!; [done..|]. by rewrite (Hbody 0).
  - right. split; [done|]. by rewrite (Hbody 1).
Qed.

Lemma chrome_that_fails_to_launch_at_8_is_taken_for_bad :
  ((∃ cw, @Launcher.Throw (Launcher.chrome * Launcher.os) "ENOENT" = Launcher.Normal cw) ∧
   (DefaultScript.isGood ["g"%string]).1 = Some true ∧
   (bisect_body (λ _, true) (λ _, Some "chrome"%string) (λ _, ChildExit 1)
      10 false 0 16 (Host ∅ [] [])).1 = Val (Some (8, 16)))
  ∨
  (((∃ e, @Launcher.Throw (Launcher.chrome * Launcher.os) "ENOENT" = Launcher.Throw e) ∨
    (DefaultScript.isGood ["g"%string]).1 = Some false) ∧
   (bisect_body (λ _, true) (λ _, Some "chrome"%string) (λ _, ChildExit 1)
      10 false 0 16 (Host ∅ [] [])).1 = Val (Some (0, 8))).
Proof.
  apply (default_script_verdict_moves_the_bracket
           (λ _, true) (λ _, Some "chrome"%string) (λ _, ChildExit 1)
           10 0 16 (Host ∅ [] []) 8 (Host ∅ [] [ECanDownload 8]) "chrome"
           (@Launcher.Throw (Launcher.chrome * Launcher.os) "ENOENT") ["g"%string] 1).
  - vm_compute. reflexivity.
  - lia.
  - lia.
  - lia.
  - reflexivity.
  - reflexivity.
  - reflexivity.
Defined.
